(** * easier_apis: the expiring LRU cache and the request dispatcher

    A shallow embedding of [easier_apis/core.py]: the class [LRUCache]
    (an [OrderedDict] of [(value, expiry)] pairs with a capacity) and the
    class [API] (cache lookup, transport call, middleware pipeline,
    invalidation), followed by the properties of the specification that
    concern them.

    Conventions of the embedding.
    - Python objects that are mutated in place are threaded explicitly:
      a method is a computation in the monad [M S], which returns a result
      or a raised exception together with the state as the method left it
      (a mutation made before an exception is raised stays made).
    - Every reading of [time.time()] is an explicit argument [now], a
      binary64 float; a ttl is a Python [int]. The sum
      [time.time() + ttl] converts the ttl to a float, which raises
      [OverflowError] when it is out of range, and rounds.
    - The foreign library ([lib.rust_core_fetch], [lib.rust_core_send])
      and the JSON encoder are parameters, of type [Lib]; every call to the
      foreign library is recorded in the [rust_core] log of the [API]
      object. *)

From Stdlib Require Import List String ZArith Lia Bool.
From Stdlib Require SpecFloat.
Import ListNotations.

Set Implicit Arguments.
Set Warnings "-register-all".
Set Warnings "-automation".
Set Warnings "-default".

(** ** Python values *)

(** The payloads handled by the library are what [json.loads] produces
    ([None], booleans, integers, strings, lists, dicts); they are also the
    values stored in the cache. *)
Inductive value : Type :=
| VNone
| VBool (b : bool)
| VInt (n : Z)
| VStr (s : string)
| VList (xs : list value)
| VDict (items : list (string * value)).

(** Truth value testing, as done by [if x:] in Python. *)
Definition truthy (v : value) : bool :=
  match v with
  | VNone => false
  | VBool b => b
  | VInt n => negb (n =? 0)%Z
  | VStr s => negb (s =? "")%string
  | VList xs => match xs with [] => false | _ :: _ => true end
  | VDict items => match items with [] => false | _ :: _ => true end
  end.

(** [if ttl] for an optional [int]: [None] and [0] are both false. *)
Definition truthy_num (o : option Z) : bool :=
  match o with
  | None => false
  | Some n => negb (n =? 0)%Z
  end.

(** [if path] for an optional string: [None] and the empty string are both
    false. *)
Definition truthy_str (o : option string) : bool :=
  match o with
  | None => false
  | Some s => negb (s =? "")%string
  end.

(** ** Exceptions and the state-and-exception monad *)

(** [KeyError] comes from the dictionary, [OverflowError] from the
    conversion of an [int] to a float; [Exception] stands for whatever the
    foreign library, the decoding of its answer, the JSON encoder or a
    middleware raises. *)
Inductive exn : Type :=
| KeyError (msg : string)
| OverflowError (msg : string)
| Exception (name msg : string).

Inductive res (A : Type) : Type :=
| Ok (a : A)
| Raise (e : exn).

Arguments Ok {A} a.
Arguments Raise {A} e.

Definition is_raise {A : Type} (r : res A) : bool :=
  match r with
  | Ok _ => false
  | Raise _ => true
  end.

Definition M (S A : Type) : Type := S -> res A * S.

Definition ret {S A : Type} (a : A) : M S A := fun s => (Ok a, s).

Definition bind {S A B : Type} (m : M S A) (f : A -> M S B) : M S B :=
  fun s =>
    match m s with
    | (Ok a, s') => f a s'
    | (Raise e, s') => (Raise e, s')
    end.

Definition read_state {S : Type} : M S S := fun s => (Ok s, s).

Definition lift {S A : Type} (r : res A) : M S A := fun s => (r, s).

Declare Scope monad_scope.
Delimit Scope monad_scope with monad.
Notation "x <- m ;; k" := (bind m (fun x => k))
  (at level 61, m at next level, right associativity) : monad_scope.
Notation "m ;; k" := (bind m (fun _ => k))
  (at level 61, right associativity) : monad_scope.
Open Scope monad_scope.

(** ** Python floats *)

(** A Python float is an IEEE 754 binary64 number. *)
Module PyFloat.

Notation float := SpecFloat.spec_float.

Definition prec : Z := 53.
Definition emax : Z := 1024.

(** The float nearest to an integer (ties to even); infinite when the
    integer is out of range. *)
Definition of_Z (n : Z) : float :=
  SpecFloat.binary_normalize prec emax n 0 false.

(** The conversion of a Python [int] operand of a float operation. *)
Definition of_int (n : Z) : res float :=
  match of_Z n with
  | SpecFloat.S754_infinity _ =>
      Raise (OverflowError "int too large to convert to float")
  | f => Ok f
  end.

(** [x + y] on floats: rounded, never raises. *)
Definition add (x y : float) : float := SpecFloat.SFadd prec emax x y.

(** [x + n] for a float [x] and an [int] [n]. *)
Definition add_int (x : float) (n : Z) : res float :=
  match of_int n with
  | Ok y => Ok (add x y)
  | Raise e => Raise e
  end.

(** [x > y] *)
Definition gt (x y : float) : bool := SpecFloat.SFltb y x.

(** [if x:] for a float: only the two zeros are false. *)
Definition truthy (x : float) : bool :=
  match x with
  | SpecFloat.S754_zero _ => false
  | _ => true
  end.

End PyFloat.

(** [if expiry] for an optional float. *)
Definition truthy_expiry (o : option PyFloat.float) : bool :=
  match o with
  | None => false
  | Some x => PyFloat.truthy x
  end.

(** ** [collections.OrderedDict] with string keys *)

(** The dictionary is the list of its items in iteration order: the head
    is the first item ([popitem(last=False)] removes it), the last element
    is the most recently inserted or moved one. *)
Module OrderedDict.
Section Ops.
Variable V : Type.

Definition t : Type := list (string * V).

Definition keys (d : t) : list string := map fst d.

Definition len (d : t) : Z := Z.of_nat (List.length d).

(** [key in d] *)
Fixpoint contains (key : string) (d : t) : bool :=
  match d with
  | [] => false
  | (k, _) :: d' => if (key =? k)%string then true else contains key d'
  end.

Fixpoint lookup (key : string) (d : t) : option V :=
  match d with
  | [] => None
  | (k, v) :: d' => if (key =? k)%string then Some v else lookup key d'
  end.

(** [d[key]] *)
Definition getitem (key : string) (d : t) : res V :=
  match lookup key d with
  | Some v => Ok v
  | None => Raise (KeyError key)
  end.

Definition remove (key : string) (d : t) : t :=
  filter (fun kv => negb (key =? fst kv)%string) d.

(** [del d[key]] *)
Definition delitem (key : string) (d : t) : res t :=
  if contains key d then Ok (remove key d) else Raise (KeyError key).

Fixpoint replace (key : string) (v : V) (d : t) : t :=
  match d with
  | [] => []
  | (k, w) :: d' =>
      if (key =? k)%string then (k, v) :: d' else (k, w) :: replace key v d'
  end.

(** [d[key] = v]: an existing key keeps its position, a new key goes
    last. *)
Definition setitem (key : string) (v : V) (d : t) : t :=
  if contains key d then replace key v d else d ++ [(key, v)].

(** [d.move_to_end(key)] *)
Definition move_to_end (key : string) (d : t) : res t :=
  match lookup key d with
  | Some v => Ok (remove key d ++ [(key, v)])
  | None => Raise (KeyError key)
  end.

(** [d.popitem(last=False)] *)
Definition popitem_first (d : t) : res ((string * V) * t) :=
  match d with
  | [] => Raise (KeyError "dictionary is empty")
  | kv :: d' => Ok (kv, d')
  end.

(** [d.clear()] *)
Definition clear (d : t) : t := [].

(** A dictionary holds each key once. *)
Fixpoint unique_keys (d : t) : bool :=
  match d with
  | [] => true
  | (k, _) :: d' => negb (contains k d') && unique_keys d'
  end.

(** The key at the most-recently-used end. *)
Definition last_key (d : t) : option string :=
  match rev d with
  | [] => None
  | (k, _) :: _ => Some k
  end.
End Ops.
End OrderedDict.

(** ** class LRUCache *)

Module LRUCache.

(** A cache entry is the pair [(value, expiry)]; [expiry] is [None] or an
    absolute timestamp. *)
Notation entry := (value * option PyFloat.float)%type.

Record t : Type := Build {
  cache : OrderedDict.t entry;
  capacity : Z
}.

Definition set_cache (d : OrderedDict.t entry) : M t unit :=
  fun self => (Ok tt, Build d (capacity self)).

(** [__init__(self, capacity=100)] *)
Definition init (capacity : Z) : res t := Ok (Build [] capacity).

(** The test [expiry and time.time() > expiry] of [get]. *)
Definition expired (expiry : option PyFloat.float) (now : PyFloat.float)
  : bool :=
  truthy_expiry expiry
  && match expiry with Some x => PyFloat.gt now x | None => false end.

(** [get(self, key)]; [now] is the reading of [time.time()], which is
    taken only when the entry has a true expiry. *)
Definition get (key : string) (now : PyFloat.float) : M t value :=
  self <- read_state ;;
  if negb (OrderedDict.contains key (cache self)) then ret VNone
  else
    e <- lift (OrderedDict.getitem key (cache self)) ;;
    let '(v, expiry) := e in
    if expired expiry now then
      d <- lift (OrderedDict.delitem key (cache self)) ;;
      set_cache d ;;
      ret VNone
    else
      d <- lift (OrderedDict.move_to_end key (cache self)) ;;
      set_cache d ;;
      ret v.

(** The first two branches of [put]: drop the old entry of the key, or
    make room for a new key. *)
Definition make_room (key : string) : M t unit :=
  self <- read_state ;;
  if OrderedDict.contains key (cache self) then
    d <- lift (OrderedDict.delitem key (cache self)) ;;
    set_cache d
  else if (OrderedDict.len (cache self) >=? capacity self)%Z then
    p <- lift (OrderedDict.popitem_first (cache self)) ;;
    set_cache (snd p)
  else ret tt.

(** [time.time() + ttl if ttl else None]; the clock is read and the sum
    taken only for a true ttl. *)
Definition expiry_of (ttl : option Z) (now : PyFloat.float)
  : res (option PyFloat.float) :=
  if truthy_num ttl then
    match ttl with
    | Some d =>
        match PyFloat.add_int now d with
        | Ok x => Ok (Some x)
        | Raise e => Raise e
        end
    | None => Ok None
    end
  else Ok None.

(** [put(self, key, value, ttl=None)]. The expiry is computed after the
    old entry was dropped or room was made, and before the new entry is
    stored. *)
Definition put (key : string) (v : value) (ttl : option Z)
           (now : PyFloat.float) : M t unit :=
  make_room key ;;
  expiry <- lift (expiry_of ttl now) ;;
  self <- read_state ;;
  set_cache (OrderedDict.setitem key (v, expiry) (cache self)) ;;
  self <- read_state ;;
  d <- lift (OrderedDict.move_to_end key (cache self)) ;;
  set_cache d.

Definition size (self : t) : Z := OrderedDict.len (cache self).

Definition entry_of (key : string) (self : t) : option entry :=
  OrderedDict.lookup key (cache self).

(** A sequence of [put] calls, each with its key, value, ttl and clock
    reading. The caller goes on after a [put] that raised: the next call
    finds the cache as that [put] left it. *)
Definition put_call : Type :=
  (string * value * option Z * PyFloat.float)%type.

Definition put_step (self : t) (c : put_call) : t :=
  let '(key, v, ttl, now) := c in snd (put key v ttl now self).

Definition puts (calls : list put_call) (self : t) : t :=
  fold_left put_step calls self.

(** A sequence of [get] calls, each with its key and clock reading. *)
Fixpoint gets (calls : list (string * PyFloat.float)) : M t unit :=
  match calls with
  | [] => ret tt
  | (key, now) :: calls' => get key now ;; gets calls'
  end.

End LRUCache.

(** ** class API *)

Module API.

(** The calls made to the foreign library, in the order they are made.
    [CallFetch] is [lib.rust_core_fetch(core, path)]; [CallSend] is
    [lib.rust_core_send(core, path, method, json_data)]. *)
Inductive call : Type :=
| CallFetch (path : string)
| CallSend (path method json_data : string).

(** What the methods call outside the two classes. [rust_core_fetch] and
    [rust_core_send] are the foreign functions together with the decoding
    of their answer ([json.loads(ffi.string(result).decode('utf-8'))]):
    the decoded answer, or the exception raised on the way; the answer may
    depend on the calls made before. [json_dumps] is [json.dumps(data)],
    which raises on a value it cannot serialise. *)
Record Lib : Type := {
  rust_core_fetch : list call -> string -> res value;
  rust_core_send : list call -> string -> string -> string -> res value;
  json_dumps : value -> res string
}.

(** A middleware is a callable on payloads; it may raise. *)
Definition middleware_t : Type := value -> res value.

Record t : Type := Build {
  base_url : string;
  rust_core : list call;
  middleware : list middleware_t;
  cache : LRUCache.t
}.

(** [__init__(self, base_url, cache_capacity=100)] *)
Definition init (base_url : string) (cache_capacity : Z) : res t :=
  match LRUCache.init cache_capacity with
  | Ok c => Ok (Build base_url [] [] c)
  | Raise e => Raise e
  end.

(** A method of [self.cache] run from a method of [self]. *)
Definition on_cache {A : Type} (m : M LRUCache.t A) : M t A :=
  fun self =>
    let '(r, c) := m (cache self) in
    (r, Build (base_url self) (rust_core self) (middleware self) c).

(** [add_middleware(self, middleware)] *)
Definition add_middleware (mw : middleware_t) : M t unit :=
  fun self =>
    (Ok tt,
     Build (base_url self) (rust_core self) (middleware self ++ [mw])
           (cache self)).

(** The loop of [_apply_middleware]. *)
Fixpoint for_middleware (mws : list middleware_t) (data : value)
  : res value :=
  match mws with
  | [] => Ok data
  | mw :: mws' =>
      match mw data with
      | Ok data' => for_middleware mws' data'
      | Raise e => Raise e
      end
  end.

(** [_apply_middleware(self, data)] *)
Definition _apply_middleware (data : value) : M t value :=
  self <- read_state ;;
  lift (for_middleware (middleware self) data).

Definition call_lib (c : call) (answer : list call -> res value)
  : M t value :=
  fun self =>
    (answer (rust_core self),
     Build (base_url self) (rust_core self ++ [c]) (middleware self)
           (cache self)).

Definition cache_key_of (path : string) : string :=
  String.append "GET:" path.

(** [fetch(self, path, cache_ttl=None)]; [now_get] and [now_put] are the
    clock readings of [self.cache.get] and [self.cache.put]. *)
Definition fetch (lib : Lib) (path : string) (cache_ttl : option Z)
           (now_get now_put : PyFloat.float) : M t value :=
  let cache_key := cache_key_of path in
  cached_data <- on_cache (LRUCache.get cache_key now_get) ;;
  if truthy cached_data then ret cached_data
  else
    data <- call_lib (CallFetch path)
                     (fun log => rust_core_fetch lib log path) ;;
    data <- _apply_middleware data ;;
    match cache_ttl with
    | Some ttl => on_cache (LRUCache.put cache_key data (Some ttl) now_put)
    | None => ret tt
    end ;;
    ret data.

(** [send(self, path, method, data)] *)
Definition send (lib : Lib) (path method : string) (data : value)
  : M t value :=
  data <- _apply_middleware data ;;
  json_data <- lift (json_dumps lib data) ;;
  call_lib (CallSend path method json_data)
           (fun log => rust_core_send lib log path method json_data).

(** [invalidate_cache(self, path=None)] *)
Definition invalidate_cache (path : option string) : M t unit :=
  if truthy_str path then
    match path with
    | Some p =>
        let cache_key := cache_key_of p in
        on_cache
          (c <- read_state ;;
           if OrderedDict.contains cache_key (LRUCache.cache c) then
             d <- lift (OrderedDict.delitem cache_key (LRUCache.cache c)) ;;
             LRUCache.set_cache d
           else ret tt)
    | None => ret tt
    end
  else
    on_cache
      (c <- read_state ;;
       LRUCache.set_cache (OrderedDict.clear (LRUCache.cache c))).


(** One step of the pipeline, on the outcome of the steps before it. *)
Definition and_then (r : res value) (mw : middleware_t) : res value :=
  match r with
  | Ok d => mw d
  | Raise e => Raise e
  end.

(** The object [self] with another cache object. *)
Definition with_cache (self : t) (c : LRUCache.t) : t :=
  Build (base_url self) (rust_core self) (middleware self) c.

End API.

(** ** Concrete objects used in the examples *)

Module Examples.

Definition alice : value := VDict [("name"%string, VStr "Alice")].

(** A foreign library that answers every call with the same payload, and an
    encoder that returns the same text for every payload. *)
Definition lib_const (answer : value) : API.Lib :=
  {| API.rust_core_fetch := fun _ _ => Ok answer;
     API.rust_core_send := fun _ _ _ _ => Ok answer;
     API.json_dumps := fun _ => Ok "{}"%string |}.

(** [API("http://host")] *)
Definition api0 : API.t :=
  API.Build "http://host" [] [] (LRUCache.Build [] 100).

(** The float of an integer literal, for clock readings. *)
Definition at_time (n : Z) : PyFloat.float := PyFloat.of_Z n.

End Examples.

(** ** Sequences of calls *)

(** A caller makes the calls one after the other on the same object and
    goes on after a call that raised: the next call finds the object as the
    call before left it. *)
Module Runs.

Inductive cache_op : Type :=
| CGet (key : string) (now : PyFloat.float)
| CPut (key : string) (v : value) (ttl : option Z) (now : PyFloat.float).

Definition cache_step (o : cache_op) : M LRUCache.t value :=
  match o with
  | CGet key now => LRUCache.get key now
  | CPut key v ttl now => LRUCache.put key v ttl now ;; ret VNone
  end.

Definition cache_run (ops : list cache_op) (self : LRUCache.t) : LRUCache.t :=
  fold_left (fun s o => snd (cache_step o s)) ops self.

Inductive api_op : Type :=
| OFetch (path : string) (cache_ttl : option Z)
         (now_get now_put : PyFloat.float)
| OSend (path method : string) (data : value)
| OInvalidate (path : option string)
| OAddMiddleware (mw : API.middleware_t).

Definition api_step (lib : API.Lib) (o : api_op) : M API.t value :=
  match o with
  | OFetch path cache_ttl now_get now_put =>
      API.fetch lib path cache_ttl now_get now_put
  | OSend path method data => API.send lib path method data
  | OInvalidate path => API.invalidate_cache path ;; ret VNone
  | OAddMiddleware mw => API.add_middleware mw ;; ret VNone
  end.

Definition api_run (lib : API.Lib) (ops : list api_op) (self : API.t)
  : API.t :=
  fold_left (fun s o => snd (api_step lib o s)) ops self.

(** The dictionary invariant of a cache object: distinct keys, and no more
    entries than the capacity. *)
Definition cache_ok (self : LRUCache.t) : Prop :=
  OrderedDict.unique_keys (LRUCache.cache self) = true
  /\ (LRUCache.size self <= LRUCache.capacity self)%Z.

(** Whether an exception is an [OverflowError]. *)
Definition is_overflow (e : exn) : bool :=
  match e with
  | OverflowError _ => true
  | _ => false
  end.

End Runs.

(** * Properties *)

Unset Implicit Arguments.

(** ** Lemmas on [OrderedDict] *)

Section OrderedDictFacts.
Context {V : Type}.
Implicit Types (d : OrderedDict.t V) (k key : string) (v : V).

Lemma contains_lookup key d :
  OrderedDict.contains key d
  = match OrderedDict.lookup key d with Some _ => true | None => false end.
Proof.
  induction d as [|[k v] d IH]; simpl; [reflexivity|].
  destruct (key =? k)%string; [reflexivity | exact IH].
Qed.

Lemma lookup_app key d1 d2 :
  OrderedDict.lookup key (d1 ++ d2)
  = match OrderedDict.lookup key d1 with
    | Some v => Some v
    | None => OrderedDict.lookup key d2
    end.
Proof.
  induction d1 as [|[k v] d1 IH]; simpl; [reflexivity|].
  destruct (key =? k)%string; [reflexivity | exact IH].
Qed.

Lemma contains_app key d1 d2 :
  OrderedDict.contains key (d1 ++ d2)
  = OrderedDict.contains key d1 || OrderedDict.contains key d2.
Proof.
  induction d1 as [|[k v] d1 IH]; simpl; [reflexivity|].
  destruct (key =? k)%string; [reflexivity | exact IH].
Qed.

Lemma lookup_remove_same key d :
  OrderedDict.lookup key (OrderedDict.remove key d) = None.
Proof.
  induction d as [|[k v] d IH]; simpl; [reflexivity|].
  destruct (key =? k)%string eqn:E; simpl; [exact IH|].
  rewrite E. exact IH.
Qed.

Lemma lookup_remove_other key k d :
  k <> key ->
  OrderedDict.lookup k (OrderedDict.remove key d) = OrderedDict.lookup k d.
Proof.
  intros Hne. induction d as [|[k0 v] d IH]; simpl; [reflexivity|].
  destruct (key =? k0)%string eqn:E; simpl.
  - apply String.eqb_eq in E. subst k0.
    destruct (String.eqb_spec k key); [contradiction | exact IH].
  - destruct (k =? k0)%string; [reflexivity | exact IH].
Qed.

Lemma contains_remove_same key d :
  OrderedDict.contains key (OrderedDict.remove key d) = false.
Proof. rewrite contains_lookup, lookup_remove_same. reflexivity. Qed.

Lemma contains_remove_other key k d :
  k <> key ->
  OrderedDict.contains k (OrderedDict.remove key d)
  = OrderedDict.contains k d.
Proof.
  intros Hne. rewrite !contains_lookup, lookup_remove_other by exact Hne.
  reflexivity.
Qed.

Lemma remove_absent key d :
  OrderedDict.contains key d = false -> OrderedDict.remove key d = d.
Proof.
  induction d as [|[k v] d IH]; simpl; [reflexivity|].
  destruct (key =? k)%string; simpl; [discriminate|].
  intros H. rewrite (IH H). reflexivity.
Qed.

Lemma remove_app key d1 d2 :
  OrderedDict.remove key (d1 ++ d2)
  = OrderedDict.remove key d1 ++ OrderedDict.remove key d2.
Proof. apply filter_app. Qed.

Lemma length_remove_le key d :
  (List.length (OrderedDict.remove key d) <= List.length d)%nat.
Proof.
  induction d as [|[k v] d IH]; simpl; [lia|].
  destruct (key =? k)%string; simpl; lia.
Qed.

Lemma length_remove_present key d :
  OrderedDict.contains key d = true ->
  (List.length (OrderedDict.remove key d) < List.length d)%nat.
Proof.
  induction d as [|[k v] d IH]; simpl; [discriminate|].
  destruct (key =? k)%string; simpl; intros H.
  - pose proof (length_remove_le key d). lia.
  - specialize (IH H). lia.
Qed.

Lemma length_remove_unique key d :
  OrderedDict.unique_keys d = true ->
  OrderedDict.contains key d = true ->
  S (List.length (OrderedDict.remove key d)) = List.length d.
Proof.
  induction d as [|[k v] d IH]; simpl; [discriminate|].
  intros Hu Hc. apply andb_true_iff in Hu. destruct Hu as [Hk Hu].
  destruct (key =? k)%string eqn:E; simpl.
  - apply String.eqb_eq in E. subst k.
    rewrite remove_absent; [reflexivity|].
    destruct (OrderedDict.contains key d); [discriminate | reflexivity].
  - rewrite (IH Hu Hc). reflexivity.
Qed.

Lemma unique_keys_remove key d :
  OrderedDict.unique_keys d = true ->
  OrderedDict.unique_keys (OrderedDict.remove key d) = true.
Proof.
  induction d as [|[k v] d IH]; simpl; [reflexivity|].
  intros Hu. apply andb_true_iff in Hu. destruct Hu as [Hk Hu].
  destruct (key =? k)%string eqn:E; simpl; [exact (IH Hu)|].
  rewrite (IH Hu), andb_true_r.
  rewrite contains_remove_other; [exact Hk|].
  intros ->. rewrite String.eqb_refl in E. discriminate.
Qed.

Lemma unique_keys_snoc key v d :
  OrderedDict.unique_keys d = true ->
  OrderedDict.contains key d = false ->
  OrderedDict.unique_keys (d ++ [(key, v)]) = true.
Proof.
  induction d as [|[k w] d IH]; simpl; [reflexivity|].
  intros Hu Hc. apply andb_true_iff in Hu. destruct Hu as [Hk Hu].
  destruct (key =? k)%string eqn:E; [discriminate|].
  rewrite (IH Hu Hc), andb_true_r, contains_app. simpl.
  rewrite String.eqb_sym, E.
  destruct (OrderedDict.contains k d); [discriminate | reflexivity].
Qed.

Lemma last_key_snoc key v d :
  OrderedDict.last_key (d ++ [(key, v)]) = Some key.
Proof. unfold OrderedDict.last_key. rewrite rev_unit. reflexivity. Qed.

Lemma keys_snoc key v d :
  OrderedDict.keys (d ++ [(key, v)]) = OrderedDict.keys d ++ [key].
Proof. unfold OrderedDict.keys. rewrite map_app. reflexivity. Qed.

Lemma lookup_snoc_same key v d :
  OrderedDict.contains key d = false ->
  OrderedDict.lookup key (d ++ [(key, v)]) = Some v.
Proof.
  intros H. rewrite lookup_app. rewrite contains_lookup in H.
  destruct (OrderedDict.lookup key d); [discriminate|].
  simpl. rewrite String.eqb_refl. reflexivity.
Qed.

Lemma lookup_snoc_other key k v d :
  k <> key ->
  OrderedDict.lookup k (d ++ [(key, v)]) = OrderedDict.lookup k d.
Proof.
  intros Hne. rewrite lookup_app.
  destruct (OrderedDict.lookup k d); [reflexivity|].
  simpl. destruct (String.eqb_spec k key); [contradiction | reflexivity].
Qed.

(** Moving a present key to the end keeps every binding. *)
Lemma lookup_move key k v d :
  OrderedDict.lookup key d = Some v ->
  OrderedDict.lookup k (OrderedDict.remove key d ++ [(key, v)])
  = OrderedDict.lookup k d.
Proof.
  intros H. destruct (String.eqb_spec k key) as [->|Hne].
  - rewrite lookup_snoc_same by apply contains_remove_same.
    symmetry. exact H.
  - rewrite lookup_snoc_other, lookup_remove_other by exact Hne.
    reflexivity.
Qed.
End OrderedDictFacts.

(** ** What [get] and [put] compute *)

Lemma get_eq key now self :
  LRUCache.get key now self
  = match OrderedDict.lookup key (LRUCache.cache self) with
    | None => (Ok VNone, self)
    | Some (v, expiry) =>
        if LRUCache.expired expiry now then
          (Ok VNone,
           LRUCache.Build (OrderedDict.remove key (LRUCache.cache self))
                          (LRUCache.capacity self))
        else
          (Ok v,
           LRUCache.Build
             (OrderedDict.remove key (LRUCache.cache self)
              ++ [(key, (v, expiry))])
             (LRUCache.capacity self))
    end.
Proof.
  unfold LRUCache.get, bind, read_state, lift, ret, LRUCache.set_cache,
    OrderedDict.getitem, OrderedDict.delitem, OrderedDict.move_to_end.
  rewrite contains_lookup.
  destruct (OrderedDict.lookup key (LRUCache.cache self)) as [[v expiry]|];
    simpl; [|reflexivity].
  destruct (LRUCache.expired expiry now); reflexivity.
Qed.

(** [put] first drops the old entry of the key or pops the first item,
    then computes the expiry; when that raises, the dictionary stays as the
    first step left it and the new entry is not stored. *)
Lemma put_eq key v ttl now self :
  LRUCache.put key v ttl now self
  = let d := LRUCache.cache self in
    let c := LRUCache.capacity self in
    let store (d1 : OrderedDict.t LRUCache.entry) :=
      match LRUCache.expiry_of ttl now with
      | Ok e => (Ok tt, LRUCache.Build (d1 ++ [(key, (v, e))]) c)
      | Raise err => (Raise err, LRUCache.Build d1 c)
      end in
    if OrderedDict.contains key d then store (OrderedDict.remove key d)
    else if (OrderedDict.len d >=? c)%Z then
      match d with
      | [] => (Raise (KeyError "dictionary is empty"), LRUCache.Build [] c)
      | _ :: d' => store d'
      end
    else store d.
Proof.
  assert (Hins : forall (d : OrderedDict.t LRUCache.entry) e,
    OrderedDict.contains key d = false ->
    OrderedDict.move_to_end key (OrderedDict.setitem key e d)
    = Ok (d ++ [(key, e)])).
  { intros d e Hd. unfold OrderedDict.move_to_end, OrderedDict.setitem.
    rewrite Hd, lookup_snoc_same by exact Hd.
    rewrite remove_app, remove_absent by exact Hd.
    simpl. rewrite String.eqb_refl. simpl. rewrite app_nil_r. reflexivity. }
  destruct self as [d c].
  unfold LRUCache.put, LRUCache.make_room, bind, read_state, lift, ret,
    LRUCache.set_cache, OrderedDict.delitem, OrderedDict.popitem_first.
  cbn [LRUCache.cache LRUCache.capacity].
  destruct (OrderedDict.contains key d) eqn:Hc.
  - cbn [LRUCache.cache LRUCache.capacity].
    destruct (LRUCache.expiry_of ttl now) as [e|err]; [|reflexivity].
    cbn [LRUCache.cache LRUCache.capacity].
    rewrite Hins by apply contains_remove_same. reflexivity.
  - destruct (OrderedDict.len d >=? c)%Z.
    + destruct d as [|[k0 e0] d']; [reflexivity|].
      cbn [LRUCache.cache LRUCache.capacity snd].
      destruct (LRUCache.expiry_of ttl now) as [e|err]; [|reflexivity].
      cbn [LRUCache.cache LRUCache.capacity].
      rewrite Hins; [reflexivity|].
      simpl in Hc. destruct (key =? k0)%string; [discriminate | exact Hc].
    + cbn [LRUCache.cache LRUCache.capacity].
      destruct (LRUCache.expiry_of ttl now) as [e|err]; [|reflexivity].
      cbn [LRUCache.cache LRUCache.capacity].
      rewrite Hins by exact Hc. reflexivity.
Qed.

Lemma cache_eta (self : LRUCache.t) :
  LRUCache.Build (LRUCache.cache self) (LRUCache.capacity self) = self.
Proof. destruct self. reflexivity. Qed.

(** The expiry computation raises nothing but [OverflowError], and only
    for a true ttl that does not convert to a float. *)
Lemma expiry_of_raise ttl now err :
  LRUCache.expiry_of ttl now = Raise err ->
  Runs.is_overflow err = true
  /\ exists d, ttl = Some d /\ d <> 0%Z /\ PyFloat.of_int d = Raise err.
Proof.
  unfold LRUCache.expiry_of, truthy_num, PyFloat.add_int.
  destruct ttl as [d|]; [|discriminate].
  destruct (Z.eqb_spec d 0) as [|Hd]; cbn [negb]; [discriminate|].
  destruct (PyFloat.of_int d) as [y|e] eqn:Hof; [discriminate|].
  intros H. injection H as <-. split.
  - unfold PyFloat.of_int in Hof.
    destruct (PyFloat.of_Z d); try discriminate.
    injection Hof as <-. reflexivity.
  - exists d. repeat split; assumption.
Qed.

Lemma expiry_of_falsy ttl now :
  ttl = None \/ ttl = Some 0%Z -> LRUCache.expiry_of ttl now = Ok None.
Proof. intros [-> | ->]; reflexivity. Qed.

(** With a capacity of at least 1 the outcome of [put] is the outcome of the
    expiry computation: [KeyError] cannot happen. *)
Lemma put_result key v ttl now self :
  (1 <= LRUCache.capacity self)%Z ->
  fst (LRUCache.put key v ttl now self)
  = match LRUCache.expiry_of ttl now with
    | Ok _ => Ok tt
    | Raise err => Raise err
    end.
Proof.
  intros Hcap. rewrite put_eq. cbv zeta.
  destruct self as [d c]. cbn [LRUCache.cache LRUCache.capacity] in *.
  destruct (OrderedDict.contains key d).
  - destruct (LRUCache.expiry_of ttl now); reflexivity.
  - destruct (OrderedDict.len d >=? c)%Z eqn:Hlen.
    + destruct d as [|kv d'].
      * unfold OrderedDict.len in Hlen. simpl in Hlen.
        apply Z.geb_le in Hlen. lia.
      * destruct (LRUCache.expiry_of ttl now); reflexivity.
    + destruct (LRUCache.expiry_of ttl now); reflexivity.
Qed.

Lemma put_capacity key v ttl now self :
  LRUCache.capacity (snd (LRUCache.put key v ttl now self))
  = LRUCache.capacity self.
Proof.
  rewrite put_eq. cbv zeta.
  destruct (OrderedDict.contains key (LRUCache.cache self)).
  - destruct (LRUCache.expiry_of ttl now); reflexivity.
  - destruct (OrderedDict.len (LRUCache.cache self)
              >=? LRUCache.capacity self)%Z.
    + destruct (LRUCache.cache self); [reflexivity|].
      destruct (LRUCache.expiry_of ttl now); reflexivity.
    + destruct (LRUCache.expiry_of ttl now); reflexivity.
Qed.

Lemma put_size key v ttl now self :
  (LRUCache.size self <= LRUCache.capacity self)%Z ->
  (LRUCache.size (snd (LRUCache.put key v ttl now self))
   <= LRUCache.capacity self)%Z.
Proof.
  unfold LRUCache.size, OrderedDict.len. intros Hsize.
  rewrite put_eq. cbv zeta.
  destruct self as [d c]. cbn [LRUCache.cache LRUCache.capacity] in *.
  destruct (OrderedDict.contains key d) eqn:Hc.
  - pose proof (length_remove_present key _ Hc).
    destruct (LRUCache.expiry_of ttl now); cbn [snd LRUCache.cache];
      [rewrite length_app; cbn [List.length]|]; lia.
  - destruct (OrderedDict.len d >=? c)%Z eqn:Hlen;
      unfold OrderedDict.len in Hlen.
    + destruct d as [|kv d']; [cbn [snd LRUCache.cache]; exact Hsize|].
      destruct (LRUCache.expiry_of ttl now); cbn [snd LRUCache.cache];
        [rewrite length_app|]; cbn [List.length] in *; lia.
    + rewrite Z.geb_leb in Hlen. apply Z.leb_gt in Hlen.
      destruct (LRUCache.expiry_of ttl now); cbn [snd LRUCache.cache];
        [rewrite length_app; cbn [List.length]|]; lia.
Qed.

Lemma put_unique key v ttl now self :
  OrderedDict.unique_keys (LRUCache.cache self) = true ->
  OrderedDict.unique_keys
    (LRUCache.cache (snd (LRUCache.put key v ttl now self))) = true.
Proof.
  intros Hu. rewrite put_eq. cbv zeta.
  destruct self as [d c]. cbn [LRUCache.cache LRUCache.capacity] in *.
  destruct (OrderedDict.contains key d) eqn:Hc.
  - destruct (LRUCache.expiry_of ttl now); cbn [snd LRUCache.cache].
    + apply unique_keys_snoc.
      * apply unique_keys_remove, Hu.
      * apply contains_remove_same.
    + apply unique_keys_remove, Hu.
  - destruct (OrderedDict.len d >=? c)%Z.
    + destruct d as [|[k0 e0] d']; [reflexivity|].
      simpl in Hu, Hc. apply andb_true_iff in Hu. destruct Hu as [_ Hu].
      destruct (key =? k0)%string; [discriminate|].
      destruct (LRUCache.expiry_of ttl now); cbn [snd LRUCache.cache].
      * apply unique_keys_snoc; assumption.
      * exact Hu.
    + destruct (LRUCache.expiry_of ttl now); cbn [snd LRUCache.cache].
      * apply unique_keys_snoc; assumption.
      * exact Hu.
Qed.

(** The entry written by a [put] that returns. *)
Lemma put_entry key v ttl now self :
  fst (LRUCache.put key v ttl now self) = Ok tt ->
  exists e,
    LRUCache.expiry_of ttl now = Ok e
    /\ LRUCache.entry_of key (snd (LRUCache.put key v ttl now self))
       = Some (v, e).
Proof.
  unfold LRUCache.entry_of. rewrite put_eq. cbv zeta.
  destruct self as [d c]. cbn [LRUCache.cache LRUCache.capacity].
  destruct (OrderedDict.contains key d) eqn:Hc.
  - destruct (LRUCache.expiry_of ttl now) as [e|err]; [|discriminate].
    intros _. exists e. split; [reflexivity|]. cbn [snd LRUCache.cache].
    apply lookup_snoc_same, contains_remove_same.
  - destruct (OrderedDict.len d >=? c)%Z.
    + destruct d as [|[k0 e0] d']; [discriminate|].
      destruct (LRUCache.expiry_of ttl now) as [e|err]; [|discriminate].
      intros _. exists e. split; [reflexivity|]. cbn [snd LRUCache.cache].
      apply lookup_snoc_same.
      simpl in Hc. destruct (key =? k0)%string; [discriminate | exact Hc].
    + destruct (LRUCache.expiry_of ttl now) as [e|err]; [|discriminate].
      intros _. exists e. split; [reflexivity|]. cbn [snd LRUCache.cache].
      apply lookup_snoc_same, Hc.
Qed.

(** A [put] never removes or changes the entry of another key that is not
    the first item of the dictionary, and never any other entry at all when
    its own key is present or the cache is not full. *)
Lemma put_other_entries key v ttl now self k :
  k <> key ->
  OrderedDict.contains key (LRUCache.cache self) = true
  \/ (LRUCache.size self < LRUCache.capacity self)%Z ->
  LRUCache.entry_of k (snd (LRUCache.put key v ttl now self))
  = LRUCache.entry_of k self.
Proof.
  intros Hne Hcase. unfold LRUCache.entry_of, LRUCache.size in *.
  rewrite put_eq. cbv zeta.
  destruct self as [d c]. cbn [LRUCache.cache LRUCache.capacity] in *.
  destruct (OrderedDict.contains key d) eqn:Hc.
  - destruct (LRUCache.expiry_of ttl now); cbn [snd LRUCache.cache].
    + rewrite lookup_snoc_other, lookup_remove_other by exact Hne.
      reflexivity.
    + apply lookup_remove_other, Hne.
  - destruct Hcase as [|Hroom]; [discriminate|].
    assert (Hge : (OrderedDict.len d >=? c)%Z = false).
    { rewrite Z.geb_leb. apply Z.leb_gt. exact Hroom. }
    rewrite Hge.
    destruct (LRUCache.expiry_of ttl now); cbn [snd LRUCache.cache].
    + apply lookup_snoc_other, Hne.
    + reflexivity.
Qed.

(** ** What [get] leaves in the cache *)

(** A [get] never raises. *)
Lemma get_ok key now self : exists v, fst (LRUCache.get key now self) = Ok v.
Proof.
  rewrite get_eq.
  destruct (OrderedDict.lookup key (LRUCache.cache self)) as [[v expiry]|].
  - destruct (LRUCache.expired expiry now); eexists; reflexivity.
  - eexists; reflexivity.
Qed.

(** Every entry found after a [get] was there before it, unchanged. *)
Lemma get_entry_inv key now self k e :
  LRUCache.entry_of k (snd (LRUCache.get key now self)) = Some e ->
  LRUCache.entry_of k self = Some e.
Proof.
  unfold LRUCache.entry_of. rewrite get_eq.
  destruct (OrderedDict.lookup key (LRUCache.cache self))
    as [[v expiry]|] eqn:Hk; [|exact (fun H => H)].
  destruct (LRUCache.expired expiry now); cbn [snd LRUCache.cache].
  - destruct (String.eqb_spec k key) as [->|Hne].
    + rewrite lookup_remove_same. discriminate.
    + rewrite lookup_remove_other by exact Hne. exact (fun H => H).
  - rewrite (lookup_move _ k _ _ Hk). exact (fun H => H).
Qed.

(** An entry without expiry survives every [get], whatever the key looked
    up and whatever the time. *)
Lemma get_keeps_unexpiring key now self k v expiry :
  LRUCache.expired expiry now = false \/ k <> key ->
  LRUCache.entry_of k self = Some (v, expiry) ->
  LRUCache.entry_of k (snd (LRUCache.get key now self)) = Some (v, expiry).
Proof.
  unfold LRUCache.entry_of. intros Hor Hk. rewrite get_eq.
  destruct (OrderedDict.lookup key (LRUCache.cache self))
    as [[v' expiry']|] eqn:Hkey; [|exact Hk].
  destruct (LRUCache.expired expiry' now) eqn:He; cbn [snd LRUCache.cache].
  - destruct (String.eqb_spec k key) as [->|Hne].
    + rewrite Hk in Hkey. injection Hkey as <- <-.
      destruct Hor as [Hno|Hne]; [congruence | contradiction].
    + rewrite lookup_remove_other by exact Hne. exact Hk.
  - rewrite (lookup_move _ k _ _ Hkey). exact Hk.
Qed.

Lemma gets_keep_unexpiring calls self k v :
  LRUCache.entry_of k self = Some (v, None) ->
  LRUCache.entry_of k (snd (LRUCache.gets calls self)) = Some (v, None).
Proof.
  revert self. induction calls as [|[key now] calls IH]; intros self Hk.
  - exact Hk.
  - cbn [LRUCache.gets]. unfold bind.
    pose proof (get_keeps_unexpiring key now self k v None
                  (or_introl eq_refl) Hk)
      as Hstep.
    destruct (get_ok key now self) as [r Hr].
    destruct (LRUCache.get key now self) as [r' s']. cbn [fst snd] in *.
    subst r'. apply IH, Hstep.
Qed.

(** [get] keeps the keys of the dictionary distinct, as [put] does. *)
Lemma get_unique key now self :
  OrderedDict.unique_keys (LRUCache.cache self) = true ->
  OrderedDict.unique_keys (LRUCache.cache (snd (LRUCache.get key now self)))
  = true.
Proof.
  intros Hu. rewrite get_eq.
  destruct (OrderedDict.lookup key (LRUCache.cache self))
    as [[v expiry]|]; [|exact Hu].
  destruct (LRUCache.expired expiry now); cbn [snd LRUCache.cache].
  - apply unique_keys_remove, Hu.
  - apply unique_keys_snoc.
    + apply unique_keys_remove, Hu.
    + apply contains_remove_same.
Qed.

(** ** C1: the ttl of an entry *)

(** C1, at the failing input: [put("k", 1, ttl=0)] at time 100 stores the
    entry without expiry, and [get("k")] at the later time 101 (or at any
    later time, here also 1000000) returns 1 where the claim has [None]. *)
Theorem C1_ttl_zero_never_expires :
  let s0 := LRUCache.Build [] 10 in
  let put0 := LRUCache.put "k" (VInt 1) (Some 0%Z) (Examples.at_time 100) s0 in
  let s1 := snd put0 in
  fst put0 = Ok tt
  /\ LRUCache.entry_of "k" s1 = Some (VInt 1, None)
  /\ fst (LRUCache.get "k" (Examples.at_time 101) s1) = Ok (VInt 1)
  /\ fst (LRUCache.get "k" (Examples.at_time 101) s1) <> Ok VNone
  /\ fst (LRUCache.get "k" (Examples.at_time 1000000) s1) = Ok (VInt 1).
Proof. repeat split. discriminate. Qed.

(** The part of C1 that holds, and why ttl 0 behaves as above: [put] with
    [ttl] absent, or with [ttl = 0] ([if ttl] is false for both), creates
    an entry without expiry. After such a [put], and after any further
    sequence of [get] calls on any keys at any times, [get(k)] at any time
    returns [v]. *)
Lemma put_without_true_ttl_never_expires
  (self : LRUCache.t) (k : string) (v : value) (ttl : option Z)
  (now : PyFloat.float) (calls : list (string * PyFloat.float))
  (later : PyFloat.float) :
  ttl = None \/ ttl = Some 0%Z ->
  fst (LRUCache.put k v ttl now self) = Ok tt ->
  let s1 := snd (LRUCache.put k v ttl now self) in
  let s2 := snd (LRUCache.gets calls s1) in
  LRUCache.entry_of k s1 = Some (v, None)
  /\ fst (LRUCache.get k later s2) = Ok v.
Proof.
  intros Httl Hput s1 s2.
  assert (H1 : LRUCache.entry_of k s1 = Some (v, None)).
  { unfold s1. destruct (put_entry _ _ _ _ _ Hput) as (e & He & Hentry).
    rewrite (expiry_of_falsy ttl now Httl) in He. injection He as <-.
    exact Hentry. }
  split; [exact H1|].
  pose proof (gets_keep_unexpiring calls s1 k v H1) as H2. fold s2 in H2.
  rewrite get_eq. unfold LRUCache.entry_of in H2. rewrite H2. reflexivity.
Qed.

Lemma put_without_ttl_example :
  let s1 := snd (LRUCache.put "k" (VInt 1) None (Examples.at_time 100)
                              (LRUCache.Build [] 10)) in
  let s2 := snd (LRUCache.gets [("j"%string, Examples.at_time 150);
                                ("k"%string, Examples.at_time 200)] s1) in
  LRUCache.entry_of "k" s1 = Some (VInt 1, None)
  /\ fst (LRUCache.get "k" (Examples.at_time 1000000) s2) = Ok (VInt 1).
Proof.
  apply (put_without_true_ttl_never_expires
           (LRUCache.Build [] 10) "k" (VInt 1) None (Examples.at_time 100)
           [("j"%string, Examples.at_time 150);
            ("k"%string, Examples.at_time 200)] (Examples.at_time 1000000)).
  - left. reflexivity.
  - reflexivity.
Defined.

(** ** C3: the capacity bound *)

Lemma puts_invariant calls self :
  (LRUCache.size self <= LRUCache.capacity self)%Z ->
  LRUCache.capacity (LRUCache.puts calls self) = LRUCache.capacity self
  /\ (LRUCache.size (LRUCache.puts calls self) <= LRUCache.capacity self)%Z.
Proof.
  revert self.
  induction calls as [|[[[key v] ttl] now] calls IH]; intros self Hsize.
  - split; [reflexivity | exact Hsize].
  - unfold LRUCache.puts. cbn [fold_left LRUCache.put_step].
    pose proof (put_size key v ttl now self Hsize) as Hsz.
    pose proof (put_capacity key v ttl now self) as Hc.
    rewrite <- Hc in Hsz. destruct (IH _ Hsz) as [H1 H2].
    unfold LRUCache.puts in H1, H2.
    split; [rewrite H1; exact Hc | rewrite <- Hc; exact H2].
Qed.

(** C3: a cache constructed with capacity [c >= 1] holds at most [c]
    entries after every sequence of [put] calls (any keys, values, ttls and
    times), also when some of them raise. A [put] of a new key into a full
    cache first removes exactly the first item of the dictionary, the least
    recently used one: what is left is the rest of the dictionary, followed
    by the new entry unless the expiry computation raised. A [put] of a key
    already present removes no other key. *)
Theorem C3_capacity_invariant (c : Z) (self : LRUCache.t) :
  (1 <= c)%Z ->
  LRUCache.init c = Ok self ->
  (forall calls : list LRUCache.put_call,
      (LRUCache.size (LRUCache.puts calls self) <= c)%Z)
  /\ (forall (s : LRUCache.t) lru rest key v ttl now,
         LRUCache.cache s = lru :: rest ->
         OrderedDict.contains key (LRUCache.cache s) = false ->
         (LRUCache.size s >= LRUCache.capacity s)%Z ->
         LRUCache.put key v ttl now s
         = match LRUCache.expiry_of ttl now with
           | Ok e =>
               (Ok tt,
                LRUCache.Build (rest ++ [(key, (v, e))])
                               (LRUCache.capacity s))
           | Raise err =>
               (Raise err, LRUCache.Build rest (LRUCache.capacity s))
           end)
  /\ (forall (s : LRUCache.t) key v ttl now k,
         OrderedDict.contains key (LRUCache.cache s) = true ->
         k <> key ->
         LRUCache.entry_of k (snd (LRUCache.put key v ttl now s))
         = LRUCache.entry_of k s).
Proof.
  intros Hc Hinit. injection Hinit as <-. split; [|split].
  - intros calls.
    destruct (puts_invariant calls (LRUCache.Build [] c)) as [_ H];
      [cbn; lia | exact H].
  - intros s lru rest key v ttl now Hd Hnew Hfull.
    rewrite put_eq. cbv zeta. rewrite Hnew.
    unfold LRUCache.size in Hfull.
    assert (Hge : (OrderedDict.len (LRUCache.cache s)
                   >=? LRUCache.capacity s)%Z = true)
      by (apply Z.geb_le; lia).
    rewrite Hge, Hd. reflexivity.
  - intros s key v ttl now k Hin Hne.
    apply put_other_entries; [exact Hne | left; exact Hin].
Qed.

Lemma C3_capacity_invariant_witness :
  let self := LRUCache.Build [] 2 in
  let calls : list LRUCache.put_call :=
    [("a"%string, VInt 1, None, Examples.at_time 0);
     ("b"%string, VInt 2, Some 5%Z, Examples.at_time 1);
     ("c"%string, VInt 3, Some (2 ^ 1024)%Z, Examples.at_time 2);
     ("a"%string, VInt 4, None, Examples.at_time 3);
     ("d"%string, VInt 5, Some 0%Z, Examples.at_time 4)] in
  (LRUCache.size (LRUCache.puts calls self) <= 2)%Z.
Proof.
  intros self calls.
  refine (proj1 (C3_capacity_invariant 2 self _ _) calls).
  - lia.
  - reflexivity.
Defined.

(** ** C8: updating a key *)

(** C8, the claim as stated fails: in a full cache holding [a] and [b],
    [put("a", 7, ttl=2**1024)] deletes the entry of [a] and then raises
    [OverflowError] on [time.time() + ttl]; the key does not hold the new
    value, it is gone, and the cache has one entry less. *)
Lemma C8_update_with_huge_ttl_counterexample :
  let self :=
    LRUCache.Build [("a"%string, (VInt 1, None));
                    ("b"%string, (VInt 2, None))] 2 in
  let r := LRUCache.put "a" (VInt 7) (Some (2 ^ 1024)%Z)
                        (Examples.at_time 100) self in
  fst r = Raise (OverflowError "int too large to convert to float")
  /\ LRUCache.entry_of "a" (snd r) = None
  /\ LRUCache.entry_of "a" (snd r) <> Some (VInt 7, None)
  /\ LRUCache.size self = 2%Z
  /\ LRUCache.size (snd r) = 1%Z.
Proof. repeat split. discriminate. Qed.

(** C8 (amended): a [put] on a key already present (in particular when the
    cache is at capacity) evicts no other entry: every other key keeps its
    value and expiry, and the capacity is unchanged. When the [put] returns
    normally (its ttl is absent, 0, or an [int] that converts to a float),
    the key holds the new value with the expiry computed from the new ttl
    and the number of entries is unchanged. *)
Theorem C8_update_evicts_nothing
  (self : LRUCache.t) (key : string) (v : value) (ttl : option Z)
  (now : PyFloat.float) :
  OrderedDict.unique_keys (LRUCache.cache self) = true ->
  OrderedDict.contains key (LRUCache.cache self) = true ->
  let r := LRUCache.put key v ttl now self in
  (forall k, k <> key ->
     LRUCache.entry_of k (snd r) = LRUCache.entry_of k self)
  /\ LRUCache.capacity (snd r) = LRUCache.capacity self
  /\ (forall e, LRUCache.expiry_of ttl now = Ok e ->
        fst r = Ok tt
        /\ LRUCache.entry_of key (snd r) = Some (v, e)
        /\ LRUCache.size (snd r) = LRUCache.size self)
  /\ (fst r = Ok tt ->
      exists e, LRUCache.expiry_of ttl now = Ok e
                /\ LRUCache.entry_of key (snd r) = Some (v, e)
                /\ LRUCache.size (snd r) = LRUCache.size self).
Proof.
  intros Hu Hin r.
  assert (Hok : forall e, LRUCache.expiry_of ttl now = Ok e ->
                  fst r = Ok tt
                  /\ LRUCache.entry_of key (snd r) = Some (v, e)
                  /\ LRUCache.size (snd r) = LRUCache.size self).
  { intros e He. unfold r. rewrite put_eq. cbv zeta. rewrite Hin, He.
    cbn [fst snd]. unfold LRUCache.entry_of, LRUCache.size.
    cbn [LRUCache.cache]. split; [reflexivity|]. split.
    - apply lookup_snoc_same, contains_remove_same.
    - unfold OrderedDict.len. rewrite length_app. cbn [List.length].
      rewrite <- (length_remove_unique key _ Hu Hin). lia. }
  split; [|split; [|split]].
  - intros k Hne. apply put_other_entries; [exact Hne | left; exact Hin].
  - apply put_capacity.
  - exact Hok.
  - intros Hret. destruct (put_entry _ _ _ _ _ Hret) as (e & He & _).
    exists e. split; [exact He|]. apply (Hok e He).
Qed.

Lemma C8_update_evicts_nothing_witness :
  let self :=
    LRUCache.Build [("a"%string, (VInt 1, None));
                    ("b"%string, (VInt 2, Some (Examples.at_time 9)))] 2 in
  let r := LRUCache.put "a" (VInt 7) (Some 5%Z) (Examples.at_time 100) self in
  (forall k, k <> "a"%string ->
     LRUCache.entry_of k (snd r) = LRUCache.entry_of k self)
  /\ LRUCache.capacity (snd r) = LRUCache.capacity self
  /\ (forall e, LRUCache.expiry_of (Some 5%Z) (Examples.at_time 100) = Ok e ->
        fst r = Ok tt
        /\ LRUCache.entry_of "a" (snd r) = Some (VInt 7, e)
        /\ LRUCache.size (snd r) = LRUCache.size self)
  /\ (fst r = Ok tt ->
      exists e, LRUCache.expiry_of (Some 5%Z) (Examples.at_time 100) = Ok e
                /\ LRUCache.entry_of "a" (snd r) = Some (VInt 7, e)
                /\ LRUCache.size (snd r) = LRUCache.size self).
Proof.
  intros self.
  apply (C8_update_evicts_nothing
           self "a" (VInt 7) (Some 5%Z) (Examples.at_time 100)).
  - reflexivity.
  - reflexivity.
Defined.

(** The update of the witness does return, with expiry 105. *)
Example update_returns :
  let self :=
    LRUCache.Build [("a"%string, (VInt 1, None));
                    ("b"%string, (VInt 2, Some (Examples.at_time 9)))] 2 in
  LRUCache.put "a" (VInt 7) (Some 5%Z) (Examples.at_time 100) self
  = (Ok tt,
     LRUCache.Build [("b"%string, (VInt 2, Some (Examples.at_time 9)));
                     ("a"%string, (VInt 7, Some (Examples.at_time 105)))] 2).
Proof. reflexivity. Qed.

(** ** C5 and C10: recency order, and what a hit changes *)

(** A hit: the key is present and its entry passes the expiry test. *)
Lemma get_hit key now self v expiry :
  LRUCache.entry_of key self = Some (v, expiry) ->
  LRUCache.expired expiry now = false ->
  LRUCache.get key now self
  = (Ok v,
     LRUCache.Build
       (OrderedDict.remove key (LRUCache.cache self) ++ [(key, (v, expiry))])
       (LRUCache.capacity self)).
Proof.
  unfold LRUCache.entry_of. intros Hk He. rewrite get_eq, Hk, He.
  reflexivity.
Qed.

Lemma put_last_key key v ttl now self :
  fst (LRUCache.put key v ttl now self) = Ok tt ->
  OrderedDict.last_key (LRUCache.cache (snd (LRUCache.put key v ttl now self)))
  = Some key.
Proof.
  rewrite put_eq. cbv zeta.
  destruct self as [d c]. cbn [LRUCache.cache LRUCache.capacity].
  destruct (OrderedDict.contains key d).
  - destruct (LRUCache.expiry_of ttl now); [|discriminate].
    intros _. apply last_key_snoc.
  - destruct (OrderedDict.len d >=? c)%Z.
    + destruct d as [|kv d']; [discriminate|].
      destruct (LRUCache.expiry_of ttl now); [|discriminate].
      intros _. apply last_key_snoc.
    + destruct (LRUCache.expiry_of ttl now); [|discriminate].
      intros _. apply last_key_snoc.
Qed.

(** C5: in a cache of capacity 2, [put(a,1); put(b,2); get(a); put(c,3)]
    (three distinct keys, any clock readings) leaves exactly the keys [a]
    and [c], in this order, [b] having been evicted; [get(a)] returned 1.
    In general a [get] that hits and a [put] that returns leave their key
    at the most-recently-used end of the dictionary. *)
Theorem C5_lru_order :
  (forall (a b c : string) (t1 t2 t3 t4 : PyFloat.float) (self : LRUCache.t),
      a <> b -> a <> c -> b <> c ->
      LRUCache.init 2 = Ok self ->
      let run :=
        (LRUCache.put a (VInt 1) None t1 ;;
         LRUCache.put b (VInt 2) None t2 ;;
         r <- LRUCache.get a t3 ;;
         LRUCache.put c (VInt 3) None t4 ;;
         ret r) self in
      fst run = Ok (VInt 1)
      /\ OrderedDict.keys (LRUCache.cache (snd run)) = [a; c]
      /\ LRUCache.entry_of b (snd run) = None
      /\ LRUCache.entry_of a (snd run) = Some (VInt 1, None)
      /\ LRUCache.entry_of c (snd run) = Some (VInt 3, None))
  /\ (forall (self : LRUCache.t) key now v expiry,
         LRUCache.entry_of key self = Some (v, expiry) ->
         LRUCache.expired expiry now = false ->
         OrderedDict.last_key
           (LRUCache.cache (snd (LRUCache.get key now self))) = Some key)
  /\ (forall (self : LRUCache.t) key v ttl now,
         fst (LRUCache.put key v ttl now self) = Ok tt ->
         OrderedDict.last_key
           (LRUCache.cache (snd (LRUCache.put key v ttl now self)))
         = Some key).
Proof.
  split; [|split].
  - intros a b c t1 t2 t3 t4 self Hab Hac Hbc Hinit run.
    injection Hinit as <-.
    assert (Eab : (a =? b)%string = false) by (apply String.eqb_neq; exact Hab).
    assert (Eba : (b =? a)%string = false)
      by (rewrite String.eqb_sym; exact Eab).
    assert (Eac : (a =? c)%string = false) by (apply String.eqb_neq; exact Hac).
    assert (Eca : (c =? a)%string = false)
      by (rewrite String.eqb_sym; exact Eac).
    assert (Ebc : (b =? c)%string = false) by (apply String.eqb_neq; exact Hbc).
    assert (Ecb : (c =? b)%string = false)
      by (rewrite String.eqb_sym; exact Ebc).
    assert (Hrun : run = (Ok (VInt 1),
                          LRUCache.Build [(a, (VInt 1, None));
                                          (c, (VInt 3, None))] 2)).
    { assert (H1 : LRUCache.put a (VInt 1) None t1 (LRUCache.Build [] 2)
                   = (Ok tt, LRUCache.Build [(a, (VInt 1, None))] 2))
        by (rewrite put_eq; reflexivity).
      assert (H2 : LRUCache.put b (VInt 2) None t2
                     (LRUCache.Build [(a, (VInt 1, None))] 2)
                   = (Ok tt, LRUCache.Build [(a, (VInt 1, None));
                                             (b, (VInt 2, None))] 2))
        by (rewrite put_eq; cbn; rewrite Eba; reflexivity).
      assert (H3 : LRUCache.get a t3
                     (LRUCache.Build [(a, (VInt 1, None));
                                      (b, (VInt 2, None))] 2)
                   = (Ok (VInt 1),
                      LRUCache.Build [(b, (VInt 2, None));
                                      (a, (VInt 1, None))] 2))
        by (rewrite get_eq; cbn; rewrite !String.eqb_refl; cbn;
            rewrite Eab; reflexivity).
      assert (H4 : LRUCache.put c (VInt 3) None t4
                     (LRUCache.Build [(b, (VInt 2, None));
                                      (a, (VInt 1, None))] 2)
                   = (Ok tt, LRUCache.Build [(a, (VInt 1, None));
                                             (c, (VInt 3, None))] 2))
        by (rewrite put_eq; cbn; rewrite Ecb, Eca; reflexivity).
      unfold run, bind. rewrite H1, H2, H3, H4. reflexivity. }
    rewrite Hrun. unfold LRUCache.entry_of. cbn.
    rewrite Eba, Ebc, !String.eqb_refl, Eca. repeat split.
  - intros self key now v expiry Hk He.
    rewrite (get_hit key now self v expiry Hk He). cbn [snd LRUCache.cache].
    apply last_key_snoc.
  - intros self key v ttl now Hput. apply put_last_key, Hput.
Qed.

Lemma C5_lru_order_witness :
  let run :=
    (LRUCache.put "a" (VInt 1) None (Examples.at_time 10) ;;
     LRUCache.put "b" (VInt 2) None (Examples.at_time 11) ;;
     r <- LRUCache.get "a" (Examples.at_time 12) ;;
     LRUCache.put "c" (VInt 3) None (Examples.at_time 13) ;;
     ret r) (LRUCache.Build [] 2) in
  fst run = Ok (VInt 1)
  /\ OrderedDict.keys (LRUCache.cache (snd run)) = ["a"%string; "c"%string]
  /\ LRUCache.entry_of "b" (snd run) = None
  /\ LRUCache.entry_of "a" (snd run) = Some (VInt 1, None)
  /\ LRUCache.entry_of "c" (snd run) = Some (VInt 3, None).
Proof.
  refine (proj1 C5_lru_order "a"%string "b"%string "c"%string
                (Examples.at_time 10) (Examples.at_time 11)
                (Examples.at_time 12) (Examples.at_time 13)
                (LRUCache.Build [] 2) _ _ _ _).
  - discriminate.
  - discriminate.
  - discriminate.
  - reflexivity.
Defined.

(** C10: a [get] that hits returns the stored value and moves the key to
    the most-recently-used end; the entry keeps its value and its expiry,
    and so does every other entry. Whatever a [get] does (hit, miss or
    expiry), an entry found afterwards is one that was there before: [get]
    never sets an expiry. A [put] that returns sets the expiry of its key
    from its own ttl and clock reading. *)
Theorem C10_hit_keeps_expiry :
  (forall (self : LRUCache.t) key now v expiry,
      LRUCache.entry_of key self = Some (v, expiry) ->
      LRUCache.expired expiry now = false ->
      let r := LRUCache.get key now self in
      fst r = Ok v
      /\ OrderedDict.last_key (LRUCache.cache (snd r)) = Some key
      /\ LRUCache.entry_of key (snd r) = Some (v, expiry)
      /\ (forall k, LRUCache.entry_of k (snd r) = LRUCache.entry_of k self))
  /\ (forall (self : LRUCache.t) key now k e,
         LRUCache.entry_of k (snd (LRUCache.get key now self)) = Some e ->
         LRUCache.entry_of k self = Some e)
  /\ (forall (self : LRUCache.t) key v ttl now,
         fst (LRUCache.put key v ttl now self) = Ok tt ->
         exists e,
           LRUCache.expiry_of ttl now = Ok e
           /\ LRUCache.entry_of key (snd (LRUCache.put key v ttl now self))
              = Some (v, e)).
Proof.
  split; [|split].
  - intros self key now v expiry Hk He r. unfold r.
    rewrite (get_hit key now self v expiry Hk He). cbn [fst snd].
    unfold LRUCache.entry_of in *. cbn [LRUCache.cache].
    split; [reflexivity|]. split; [apply last_key_snoc|].
    split.
    + rewrite (lookup_move _ key _ _ Hk). exact Hk.
    + intros k. apply (lookup_move _ k _ _ Hk).
  - intros self key now k e. apply get_entry_inv.
  - intros self key v ttl now. apply put_entry.
Qed.

Lemma C10_hit_keeps_expiry_witness :
  let self :=
    LRUCache.Build [("a"%string, (VInt 1, Some (Examples.at_time 50)));
                    ("b"%string, (VInt 2, None))] 2 in
  let r := LRUCache.get "a" (Examples.at_time 20) self in
  fst r = Ok (VInt 1)
  /\ OrderedDict.last_key (LRUCache.cache (snd r)) = Some "a"%string
  /\ LRUCache.entry_of "a" (snd r) = Some (VInt 1, Some (Examples.at_time 50))
  /\ (forall k, LRUCache.entry_of k (snd r) = LRUCache.entry_of k self).
Proof.
  intros self.
  refine (proj1 C10_hit_keeps_expiry self "a"%string (Examples.at_time 20)
                (VInt 1) (Some (Examples.at_time 50)) _ _).
  - reflexivity.
  - reflexivity.
Defined.

(** ** C9: the middleware pipeline *)

Lemma fold_and_then_raise mws e :
  fold_left API.and_then mws (Raise e) = Raise e.
Proof. induction mws as [|mw mws IH]; [reflexivity | exact IH]. Qed.

Lemma for_middleware_fold mws x :
  API.for_middleware mws x = fold_left API.and_then mws (Ok x).
Proof.
  revert x. induction mws as [|mw mws IH]; intros x; [reflexivity|].
  cbn [API.for_middleware fold_left API.and_then].
  destruct (mw x) as [y|e]; [apply IH|].
  symmetry. apply fold_and_then_raise.
Qed.

Lemma for_middleware_snoc mws mw x :
  API.for_middleware (mws ++ [mw]) x
  = API.and_then (API.for_middleware mws x) mw.
Proof.
  rewrite !for_middleware_fold, fold_left_app. reflexivity.
Qed.

(** C9: after [add_middleware(T1); add_middleware(T2)] on an object without
    middleware, [_apply_middleware(x)] returns [T2(T1(x))]. In general
    [add_middleware] appends to the list, and the pipeline is the left fold
    of the list from the payload: the output of the transforms before the
    last one is the input of the last one. A transform that raises ends the
    fold with its exception. *)
Theorem C9_pipeline_order :
  (forall (T1 T2 : value -> value) url log c x,
      let self := API.Build url log [] c in
      let run :=
        (API.add_middleware (fun d => Ok (T1 d)) ;;
         API.add_middleware (fun d => Ok (T2 d)) ;;
         API._apply_middleware x) self in
      fst run = Ok (T2 (T1 x)))
  /\ (forall (self : API.t) mw,
         API.middleware (snd (API.add_middleware mw self))
         = API.middleware self ++ [mw])
  /\ (forall (self : API.t) x,
         fst (API._apply_middleware x self)
         = fold_left API.and_then (API.middleware self) (Ok x))
  /\ (forall mws mw x,
         API.for_middleware (mws ++ [mw]) x
         = match API.for_middleware mws x with
           | Ok y => mw y
           | Raise e => Raise e
           end).
Proof.
  split; [|split; [|split]].
  - reflexivity.
  - reflexivity.
  - intros self x. unfold API._apply_middleware, bind, read_state, lift.
    cbn [fst]. apply for_middleware_fold.
  - intros mws mw x. apply for_middleware_snoc.
Qed.

(** ** C7: [send] and the method string *)

Lemma send_eq lib path method data self :
  API.send lib path method data self
  = match API.for_middleware (API.middleware self) data with
    | Ok data' =>
        match API.json_dumps lib data' with
        | Ok json_data =>
            (API.rust_core_send lib (API.rust_core self) path method
                                json_data,
             API.Build (API.base_url self)
                       (API.rust_core self
                        ++ [API.CallSend path method json_data])
                       (API.middleware self) (API.cache self))
        | Raise e => (Raise e, self)
        end
    | Raise e => (Raise e, self)
    end.
Proof.
  unfold API.send, API._apply_middleware, API.call_lib, bind, read_state,
    lift.
  destruct (API.for_middleware (API.middleware self) data) as [data'|e];
    [|reflexivity].
  destruct (API.json_dumps lib data'); reflexivity.
Qed.




(** ** C4: construction and the capacity *)

(** C4, the claim as stated fails: [LRUCache(0)] and
    [API("http://host", -3)] are constructed without any error. *)
Lemma C4_invalid_capacity_counterexample :
  LRUCache.init 0 = Ok (LRUCache.Build [] 0)
  /\ is_raise (LRUCache.init 0) = false
  /\ is_raise (API.init "http://host" (-3)) = false.
Proof. repeat split. Qed.

(** C4 (amended): construction never fails and never changes the capacity:
    for every capacity, below 1 or not, [LRUCache(capacity)] is an empty
    cache holding that capacity as given, and so is the cache of
    [API(base_url, capacity)]. *)
Theorem C4_construction_accepts_any_capacity (c : Z) (base_url : string) :
  LRUCache.init c = Ok (LRUCache.Build [] c)
  /\ API.init base_url c
     = Ok (API.Build base_url [] [] (LRUCache.Build [] c)).
Proof. split; reflexivity. Qed.

(** What a capacity below 1 leads to: the first [put] raises [KeyError]
    (from [popitem] on the empty dictionary) and stores nothing. *)
Lemma put_raises_when_capacity_below_one c key v ttl now :
  (c < 1)%Z ->
  LRUCache.put key v ttl now (LRUCache.Build [] c)
  = (Raise (KeyError "dictionary is empty"), LRUCache.Build [] c).
Proof.
  intros Hc. rewrite put_eq. cbn.
  assert (H : (0 >=? c)%Z = true) by (apply Z.geb_le; lia).
  rewrite H. reflexivity.
Qed.

Example api0_is_constructed :
  API.init "http://host" 100 = Ok Examples.api0.
Proof. reflexivity. Qed.

(** ** C2: [fetch] on a cached path *)

(** A stored, unexpired value that is true in a boolean context is returned
    as it is: no call to the library, no middleware, no [put]. *)
Lemma fetch_hit_truthy lib path ttl now_get now_put self v expiry :
  LRUCache.entry_of (API.cache_key_of path) (API.cache self)
  = Some (v, expiry) ->
  LRUCache.expired expiry now_get = false ->
  truthy v = true ->
  API.fetch lib path ttl now_get now_put self
  = (Ok v,
     API.with_cache self (snd (LRUCache.get (API.cache_key_of path) now_get
                                        (API.cache self)))).
Proof.
  intros Hk He Hv. unfold API.fetch, bind, API.on_cache. cbv zeta.
  rewrite (get_hit _ now_get _ v expiry Hk He). cbn [snd].
  rewrite Hv. reflexivity.
Qed.

(** A stored, unexpired value that is false in a boolean context ([{}],
    [[]], [0], the empty string, [False], [None]) is taken for a miss: the
    library is called. *)
Lemma fetch_hit_falsy lib path ttl now_get now_put self v expiry :
  LRUCache.entry_of (API.cache_key_of path) (API.cache self)
  = Some (v, expiry) ->
  LRUCache.expired expiry now_get = false ->
  truthy v = false ->
  API.rust_core (snd (API.fetch lib path ttl now_get now_put self))
  = API.rust_core self ++ [API.CallFetch path].
Proof.
  intros Hk He Hv. unfold API.fetch, bind, API.on_cache. cbv zeta.
  rewrite (get_hit _ now_get _ v expiry Hk He). cbn [snd].
  rewrite Hv. unfold API.call_lib, API._apply_middleware, read_state, lift,
    bind, ret.
  cbn [API.rust_core API.middleware API.base_url API.cache].
  destruct (API.rust_core_fetch lib (API.rust_core self) path) as [d|e];
    [|reflexivity].
  destruct (API.for_middleware (API.middleware self) d) as [d'|e];
    [|reflexivity].
  destruct ttl as [n|]; [|reflexivity].
  cbn [API.cache API.rust_core API.base_url API.middleware].
  destruct (LRUCache.put _ _ _ _ _) as [[[]|e] c]; reflexivity.
Qed.

(** C2, at the failing input: the library answers [{}] and there is no
    middleware. [fetch("/x", cache_ttl=60)] at time 0 stores [{}] under
    ["GET:/x"] with expiry 60. At time 10 the entry is present and not
    expired, yet [fetch("/x")] calls the library a second time. *)
Theorem C2_empty_payload_is_fetched_again :
  let lib := Examples.lib_const (VDict []) in
  let r1 := API.fetch lib "/x" (Some 60%Z) (Examples.at_time 0)
                      (Examples.at_time 0) Examples.api0 in
  let r2 := API.fetch lib "/x" None (Examples.at_time 10)
                      (Examples.at_time 10) (snd r1) in
  fst r1 = Ok (VDict [])
  /\ API.rust_core (snd r1) = [API.CallFetch "/x"]
  /\ LRUCache.entry_of "GET:/x" (API.cache (snd r1))
     = Some (VDict [], Some (Examples.at_time 60))
  /\ LRUCache.expired (Some (Examples.at_time 60)) (Examples.at_time 10)
     = false
  /\ fst r2 = Ok (VDict [])
  /\ API.rust_core (snd r2) = [API.CallFetch "/x"; API.CallFetch "/x"].
Proof. repeat split. Qed.

(** ** C6: invalidation *)

Lemma invalidate_given path self :
  path <> ""%string ->
  API.invalidate_cache (Some path) self
  = (Ok tt,
     API.with_cache self
       (LRUCache.Build
          (OrderedDict.remove (API.cache_key_of path)
                              (LRUCache.cache (API.cache self)))
          (LRUCache.capacity (API.cache self)))).
Proof.
  intros Hp. unfold API.invalidate_cache, truthy_str.
  destruct (String.eqb_spec path ""); [contradiction|]. cbn [negb].
  unfold API.on_cache, bind, read_state, lift, ret, LRUCache.set_cache,
    OrderedDict.delitem, API.with_cache.
  destruct (OrderedDict.contains (API.cache_key_of path)
                                 (LRUCache.cache (API.cache self))) eqn:Hc.
  - reflexivity.
  - rewrite remove_absent by exact Hc.
    destruct self as [u l m [d c]]. reflexivity.
Qed.

(** For a non-empty path only the entry of ["GET:" + path] goes; an absent
    key leaves the object as it is. Without a path everything goes. *)
Lemma invalidate_scoped path self :
  path <> ""%string ->
  let s' := snd (API.invalidate_cache (Some path) self) in
  LRUCache.entry_of (API.cache_key_of path) (API.cache s') = None
  /\ (forall k, k <> API.cache_key_of path ->
        LRUCache.entry_of k (API.cache s')
        = LRUCache.entry_of k (API.cache self))
  /\ (LRUCache.entry_of (API.cache_key_of path) (API.cache self) = None ->
      s' = self).
Proof.
  intros Hp. cbv zeta. rewrite (invalidate_given path self Hp).
  unfold LRUCache.entry_of, API.with_cache. cbn [snd API.cache LRUCache.cache].
  split; [apply lookup_remove_same|]. split.
  - intros k Hne. apply lookup_remove_other, Hne.
  - intros Habs. rewrite remove_absent.
    + destruct self as [u l m [d c]]. reflexivity.
    + rewrite contains_lookup, Habs. reflexivity.
Qed.

Lemma invalidate_all self :
  LRUCache.cache (API.cache (snd (API.invalidate_cache None self))) = [].
Proof. reflexivity. Qed.

(** C6, at the failing input: the cache holds the answers of [fetch("")]
    and [fetch("/b")], under ["GET:"] and ["GET:/b"]. The call
    [invalidate_cache("")] is given a path, the empty one, and should remove
    ["GET:"] only; it empties the cache, so the entry of ["GET:/b"] is gone
    as well. *)
Theorem C6_empty_path_clears_everything :
  let lib := Examples.lib_const Examples.alice in
  let s1 := snd (API.fetch lib "" (Some 60%Z) (Examples.at_time 0)
                           (Examples.at_time 0) Examples.api0) in
  let s2 := snd (API.fetch lib "/b" (Some 60%Z) (Examples.at_time 1)
                           (Examples.at_time 1) s1) in
  let s3 := snd (API.invalidate_cache (Some ""%string) s2) in
  OrderedDict.keys (LRUCache.cache (API.cache s2))
  = ["GET:"%string; "GET:/b"%string]
  /\ LRUCache.entry_of "GET:/b" (API.cache s2)
     = Some (Examples.alice, Some (Examples.at_time 61))
  /\ LRUCache.cache (API.cache s3) = []
  /\ LRUCache.entry_of "GET:/b" (API.cache s3) = None.
Proof. repeat split. Qed.


(** * Further properties of the cache *)

Lemma get_capacity key now self :
  LRUCache.capacity (snd (LRUCache.get key now self))
  = LRUCache.capacity self.
Proof.
  rewrite get_eq.
  destruct (OrderedDict.lookup key (LRUCache.cache self)) as [[v expiry]|];
    [|reflexivity].
  destruct (LRUCache.expired expiry now); reflexivity.
Qed.

Lemma lookup_present_contains {V : Type} key (d : OrderedDict.t V) v :
  OrderedDict.lookup key d = Some v -> OrderedDict.contains key d = true.
Proof. intros H. rewrite contains_lookup, H. reflexivity. Qed.

Lemma get_size key now self :
  OrderedDict.unique_keys (LRUCache.cache self) = true ->
  (LRUCache.size (snd (LRUCache.get key now self)) <= LRUCache.size self)%Z.
Proof.
  intros Hu. unfold LRUCache.size, OrderedDict.len. rewrite get_eq.
  destruct (OrderedDict.lookup key (LRUCache.cache self))
    as [[v expiry]|] eqn:Hk; [|cbn [snd]; lia].
  pose proof (length_remove_unique key _ Hu (lookup_present_contains _ _ _ Hk))
    as Hlen.
  destruct (LRUCache.expired expiry now); cbn [snd LRUCache.cache].
  - lia.
  - rewrite length_app. cbn [List.length]. lia.
Qed.

Lemma get_cache_ok key now self :
  Runs.cache_ok self -> Runs.cache_ok (snd (LRUCache.get key now self)).
Proof.
  intros [Hu Hs]. split.
  - apply get_unique, Hu.
  - rewrite get_capacity. pose proof (get_size key now self Hu). lia.
Qed.

Lemma put_cache_ok key v ttl now self :
  Runs.cache_ok self ->
  Runs.cache_ok (snd (LRUCache.put key v ttl now self)).
Proof.
  intros [Hu Hs]. split.
  - apply put_unique, Hu.
  - rewrite put_capacity. apply put_size; assumption.
Qed.

(** X1: a [get] that finds its entry expired returns [None] and deletes
    exactly that entry: the other entries are kept, the cache has one entry
    less, and the key stays absent for a [get] at any time, earlier ones
    included. *)
Theorem X1_expired_entry_is_deleted
  (self : LRUCache.t) (key : string) (v : value) (x now : PyFloat.float) :
  OrderedDict.unique_keys (LRUCache.cache self) = true ->
  LRUCache.entry_of key self = Some (v, Some x) ->
  PyFloat.truthy x = true -> PyFloat.gt now x = true ->
  let r := LRUCache.get key now self in
  fst r = Ok VNone
  /\ LRUCache.entry_of key (snd r) = None
  /\ (forall k, k <> key ->
        LRUCache.entry_of k (snd r) = LRUCache.entry_of k self)
  /\ LRUCache.size (snd r) = (LRUCache.size self - 1)%Z
  /\ (forall t, LRUCache.get key t (snd r) = (Ok VNone, snd r)).
Proof.
  intros Hu Hk Hx Hlt r.
  assert (He : LRUCache.expired (Some x) now = true).
  { unfold LRUCache.expired, truthy_expiry. rewrite Hx, Hlt. reflexivity. }
  assert (Hr : r = (Ok VNone,
                    LRUCache.Build
                      (OrderedDict.remove key (LRUCache.cache self))
                      (LRUCache.capacity self))).
  { unfold r. rewrite get_eq. unfold LRUCache.entry_of in Hk.
    rewrite Hk, He. reflexivity. }
  rewrite Hr. cbn [fst snd]. unfold LRUCache.entry_of, LRUCache.size.
  cbn [LRUCache.cache].
  split; [reflexivity|]. split; [apply lookup_remove_same|].
  split; [intros k Hne; apply lookup_remove_other, Hne|]. split.
  - unfold OrderedDict.len.
    pose proof (length_remove_unique key _ Hu
                  (lookup_present_contains _ _ _ Hk)). lia.
  - intros t. rewrite get_eq. cbn [LRUCache.cache].
    rewrite lookup_remove_same. reflexivity.
Qed.

Lemma X1_expired_entry_is_deleted_witness :
  let self :=
    LRUCache.Build [("a"%string, (VInt 1, Some (Examples.at_time 50)));
                    ("b"%string, (VInt 2, None))] 2 in
  let r := LRUCache.get "a" (Examples.at_time 51) self in
  fst r = Ok VNone
  /\ LRUCache.entry_of "a" (snd r) = None
  /\ (forall k, k <> "a"%string ->
        LRUCache.entry_of k (snd r) = LRUCache.entry_of k self)
  /\ LRUCache.size (snd r) = (LRUCache.size self - 1)%Z
  /\ (forall t, LRUCache.get "a" t (snd r) = (Ok VNone, snd r)).
Proof.
  intros self.
  apply (X1_expired_entry_is_deleted
           self "a" (VInt 1) (Examples.at_time 50) (Examples.at_time 51)).
  - reflexivity.
  - reflexivity.
  - reflexivity.
  - reflexivity.
Defined.

(** X2: the window of a ttl. A [put(k, v, ttl)] with a non-zero [ttl] that
    returns stores as expiry the float [e = time.time() + ttl], the rounded
    sum. When [e] is not zero, [get(k)] at time [later] returns [v] as long
    as [later > e] is false (the time [e] itself included), and once
    [later > e] it returns [None] and deletes the entry. *)
Theorem X2_ttl_window
  (self : LRUCache.t) (k : string) (v : value) (d : Z)
  (now later e : PyFloat.float) :
  d <> 0%Z ->
  PyFloat.add_int now d = Ok e ->
  PyFloat.truthy e = true ->
  fst (LRUCache.put k v (Some d) now self) = Ok tt ->
  let s1 := snd (LRUCache.put k v (Some d) now self) in
  LRUCache.entry_of k s1 = Some (v, Some e)
  /\ fst (LRUCache.get k later s1)
     = (if PyFloat.gt later e then Ok VNone else Ok v)
  /\ LRUCache.entry_of k (snd (LRUCache.get k later s1))
     = (if PyFloat.gt later e then None else Some (v, Some e)).
Proof.
  intros Hd Hadd Htrue Hput s1.
  assert (Hexp : LRUCache.expiry_of (Some d) now = Ok (Some e)).
  { unfold LRUCache.expiry_of, truthy_num.
    destruct (Z.eqb_spec d 0); [contradiction|]. cbn [negb].
    rewrite Hadd. reflexivity. }
  destruct (put_entry _ _ _ _ _ Hput) as (e' & He' & Hentry).
  rewrite Hexp in He'. injection He' as <-. fold s1 in Hentry.
  split; [exact Hentry|].
  unfold LRUCache.entry_of in *. rewrite get_eq, Hentry.
  unfold LRUCache.expired, truthy_expiry. rewrite Htrue. cbn [andb].
  destruct (PyFloat.gt later e); cbn [fst snd LRUCache.cache].
  - split; [reflexivity | apply lookup_remove_same].
  - split; [reflexivity|].
    apply lookup_snoc_same, contains_remove_same.
Qed.

Lemma X2_ttl_window_witness :
  let s1 := snd (LRUCache.put "k" (VInt 1) (Some 60%Z) (Examples.at_time 100)
                              (LRUCache.Build [] 10)) in
  let later := Examples.at_time 161 in
  let e := Examples.at_time 160 in
  LRUCache.entry_of "k" s1 = Some (VInt 1, Some e)
  /\ fst (LRUCache.get "k" later s1)
     = (if PyFloat.gt later e then Ok VNone else Ok (VInt 1))
  /\ LRUCache.entry_of "k" (snd (LRUCache.get "k" later s1))
     = (if PyFloat.gt later e then None else Some (VInt 1, Some e)).
Proof.
  apply (X2_ttl_window (LRUCache.Build [] 10) "k" (VInt 1) 60
                       (Examples.at_time 100) (Examples.at_time 161)
                       (Examples.at_time 160)).
  - lia.
  - reflexivity.
  - reflexivity.
  - reflexivity.
Defined.

(** The two sides of the window, and a rounded sum: at 160 the entry put
    at 100 with ttl 60 is served, at 161 it is gone; put at [2^53 + 2] with
    ttl 1 the entry gets the expiry [2^53 + 4] and is served at that
    time. *)
Example ttl_window_sides :
  let s1 := snd (LRUCache.put "k" (VInt 1) (Some 60%Z) (Examples.at_time 100)
                              (LRUCache.Build [] 10)) in
  let s2 := snd (LRUCache.put "k" (VInt 1) (Some 1%Z)
                              (Examples.at_time (2 ^ 53 + 2))
                              (LRUCache.Build [] 10)) in
  fst (LRUCache.get "k" (Examples.at_time 160) s1) = Ok (VInt 1)
  /\ fst (LRUCache.get "k" (Examples.at_time 161) s1) = Ok VNone
  /\ LRUCache.entry_of "k" s2
     = Some (VInt 1, Some (Examples.at_time (2 ^ 53 + 4)))
  /\ fst (LRUCache.get "k" (Examples.at_time (2 ^ 53 + 4)) s2) = Ok (VInt 1).
Proof. repeat split. Qed.

Lemma cache_step_ok o self :
  (1 <= LRUCache.capacity self)%Z ->
  (forall e, fst (Runs.cache_step o self) = Raise e ->
             Runs.is_overflow e = true
             /\ exists key v ttl now, o = Runs.CPut key v ttl now)
  /\ LRUCache.capacity (snd (Runs.cache_step o self)) = LRUCache.capacity self
  /\ (Runs.cache_ok self -> Runs.cache_ok (snd (Runs.cache_step o self))).
Proof.
  intros Hc. destruct o as [key now | key v ttl now]; cbn [Runs.cache_step].
  - split; [|split].
    + intros e. destruct (get_ok key now self) as [v Hv]. rewrite Hv.
      discriminate.
    + apply get_capacity.
    + apply get_cache_ok.
  - unfold bind, ret.
    pose proof (put_result key v ttl now self Hc) as Hres.
    pose proof (put_capacity key v ttl now self) as Hcap.
    pose proof (put_cache_ok key v ttl now self) as Hinv.
    destruct (LRUCache.put key v ttl now self) as [[[]|e0] s'];
      cbn [fst snd] in *.
    + split; [discriminate | split; assumption].
    + split; [|split; assumption].
      intros e He. injection He as <-.
      destruct (LRUCache.expiry_of ttl now) as [x|err] eqn:Hexp;
        [discriminate|].
      injection Hres as ->. split.
      * apply (expiry_of_raise ttl now err Hexp).
      * exists key, v, ttl, now. reflexivity.
Qed.

(** X3: a cache constructed with capacity [c >= 1] and used through any
    sequence of [get] and [put] calls, in any order, the caller going on
    after a call that raised, keeps its keys distinct, never holds more
    than [c] entries and keeps the capacity [c]. In every state so reached
    a [get] does not raise, and a [put] raises nothing but the
    [OverflowError] of its expiry computation: never [KeyError]. *)
Theorem X3_cache_invariant_under_get_and_put
  (c : Z) (self : LRUCache.t) (ops : list Runs.cache_op) (o : Runs.cache_op) :
  (1 <= c)%Z ->
  LRUCache.init c = Ok self ->
  let s := Runs.cache_run ops self in
  OrderedDict.unique_keys (LRUCache.cache s) = true
  /\ (LRUCache.size s <= c)%Z
  /\ LRUCache.capacity s = c
  /\ (forall e, fst (Runs.cache_step o s) = Raise e ->
                Runs.is_overflow e = true
                /\ exists key v ttl now, o = Runs.CPut key v ttl now).
Proof.
  intros Hc Hinit. injection Hinit as <-. cbv zeta.
  assert (Hgen : forall ops s0,
             LRUCache.capacity s0 = c -> Runs.cache_ok s0 ->
             LRUCache.capacity (Runs.cache_run ops s0) = c
             /\ Runs.cache_ok (Runs.cache_run ops s0)).
  { clear ops. induction ops as [|o' ops IH]; intros s0 Hcap Hok.
    - split; assumption.
    - unfold Runs.cache_run. cbn [fold_left].
      assert (Hc0 : (1 <= LRUCache.capacity s0)%Z) by lia.
      destruct (cache_step_ok o' s0 Hc0) as (_ & Hcap' & Hok').
      apply IH; [lia | apply Hok', Hok]. }
  destruct (Hgen ops (LRUCache.Build [] c)) as [Hcap [Hu Hs]].
  - reflexivity.
  - split; [reflexivity | cbn; lia].
  - split; [exact Hu|]. split; [lia|]. split; [exact Hcap|].
    apply cache_step_ok. lia.
Qed.

Lemma X3_cache_invariant_under_get_and_put_witness :
  let ops :=
    [Runs.CPut "a" (VInt 1) (Some 5%Z) (Examples.at_time 0);
     Runs.CPut "b" (VInt 2) None (Examples.at_time 1);
     Runs.CGet "a" (Examples.at_time 9);
     Runs.CPut "c" (VInt 3) (Some (2 ^ 1024)%Z) (Examples.at_time 10);
     Runs.CGet "b" (Examples.at_time 11)] in
  let o := Runs.CPut "d" VNone (Some (- 10 ^ 400)%Z) (Examples.at_time 12) in
  let s := Runs.cache_run ops (LRUCache.Build [] 2) in
  OrderedDict.unique_keys (LRUCache.cache s) = true
  /\ (LRUCache.size s <= 2)%Z
  /\ LRUCache.capacity s = 2%Z
  /\ (forall e, fst (Runs.cache_step o s) = Raise e ->
                Runs.is_overflow e = true
                /\ exists key v ttl now, o = Runs.CPut key v ttl now).
Proof.
  intros ops o.
  apply (X3_cache_invariant_under_get_and_put
           2 (LRUCache.Build [] 2) ops o).
  - lia.
  - reflexivity.
Defined.

(** X4: a cache constructed with a capacity below 1 can never hold
    anything. Whatever calls were made before, the cache is empty, every
    [put] raises [KeyError] (from [popitem] on the empty dictionary) and
    every [get] returns [None]. *)
Theorem X4_capacity_below_one_stores_nothing
  (c : Z) (self : LRUCache.t) (ops : list Runs.cache_op)
  (key : string) (v : value) (ttl : option Z) (now : PyFloat.float) :
  (c < 1)%Z ->
  LRUCache.init c = Ok self ->
  let s := Runs.cache_run ops self in
  s = self
  /\ LRUCache.cache s = []
  /\ LRUCache.put key v ttl now s
     = (Raise (KeyError "dictionary is empty"), s)
  /\ LRUCache.get key now s = (Ok VNone, s).
Proof.
  intros Hc Hinit. injection Hinit as <-. cbv zeta.
  assert (Hrun : Runs.cache_run ops (LRUCache.Build [] c)
                 = LRUCache.Build [] c).
  { induction ops as [|o ops IH]; [reflexivity|].
    unfold Runs.cache_run. cbn [fold_left].
    assert (Hstep : snd (Runs.cache_step o (LRUCache.Build [] c))
                    = LRUCache.Build [] c).
    { destruct o as [k t | k w l t]; cbn [Runs.cache_step].
      - rewrite get_eq. reflexivity.
      - unfold bind.
        rewrite (put_raises_when_capacity_below_one c k w l t Hc).
        reflexivity. }
    rewrite Hstep. exact IH. }
  rewrite Hrun. split; [reflexivity|]. split; [reflexivity|]. split.
  - apply put_raises_when_capacity_below_one, Hc.
  - rewrite get_eq. reflexivity.
Qed.

Lemma X4_capacity_below_one_stores_nothing_witness :
  let self := LRUCache.Build [] 0 in
  let s := Runs.cache_run [Runs.CPut "a" (VInt 1) None (Examples.at_time 0);
                           Runs.CGet "a" (Examples.at_time 1)] self in
  s = self
  /\ LRUCache.cache s = []
  /\ LRUCache.put "b" (VInt 2) None (Examples.at_time 2) s
     = (Raise (KeyError "dictionary is empty"), s)
  /\ LRUCache.get "b" (Examples.at_time 2) s = (Ok VNone, s).
Proof.
  intros self.
  apply (X4_capacity_below_one_stores_nothing
           0 self [Runs.CPut "a" (VInt 1) None (Examples.at_time 0);
                   Runs.CGet "a" (Examples.at_time 1)]
           "b" (VInt 2) None (Examples.at_time 2)).
  - lia.
  - reflexivity.
Defined.

(** X5: a [put] of a new key into a cache that is not full evicts
    nothing: every entry already there keeps its value and expiry. When the
    expiry computation succeeds the [put] returns, the new key holds the
    new entry and the cache has one entry more; when it raises
    ([OverflowError] for a ttl out of the float range) the [put] raises
    that exception and leaves the cache exactly as it was. *)
Theorem X5_put_new_key_below_capacity
  (self : LRUCache.t) (key : string) (v : value) (ttl : option Z)
  (now : PyFloat.float) :
  OrderedDict.contains key (LRUCache.cache self) = false ->
  (LRUCache.size self < LRUCache.capacity self)%Z ->
  let r := LRUCache.put key v ttl now self in
  (forall k, k <> key ->
     LRUCache.entry_of k (snd r) = LRUCache.entry_of k self)
  /\ match LRUCache.expiry_of ttl now with
     | Ok e =>
         fst r = Ok tt
         /\ LRUCache.entry_of key (snd r) = Some (v, e)
         /\ LRUCache.size (snd r) = (LRUCache.size self + 1)%Z
     | Raise err => r = (Raise err, self)
     end.
Proof.
  intros Hnew Hroom r. split.
  - intros k Hne. apply put_other_entries; [exact Hne | right; exact Hroom].
  - unfold r. rewrite put_eq. cbv zeta. rewrite Hnew.
    assert (Hge : (OrderedDict.len (LRUCache.cache self)
                   >=? LRUCache.capacity self)%Z = false).
    { rewrite Z.geb_leb. apply Z.leb_gt. exact Hroom. }
    rewrite Hge.
    destruct (LRUCache.expiry_of ttl now) as [e|err].
    + cbn [fst snd]. unfold LRUCache.entry_of, LRUCache.size.
      cbn [LRUCache.cache]. split; [reflexivity|]. split.
      * apply lookup_snoc_same, Hnew.
      * unfold OrderedDict.len. rewrite length_app. cbn [List.length]. lia.
    + rewrite cache_eta. reflexivity.
Qed.

Lemma X5_put_new_key_below_capacity_witness :
  let self :=
    LRUCache.Build [("a"%string, (VInt 1, Some (Examples.at_time 50)))] 2 in
  let r := LRUCache.put "b" (VInt 2) (Some 5%Z) (Examples.at_time 7) self in
  (forall k, k <> "b"%string ->
     LRUCache.entry_of k (snd r) = LRUCache.entry_of k self)
  /\ (fst r = Ok tt
      /\ LRUCache.entry_of "b" (snd r)
         = Some (VInt 2, Some (Examples.at_time 12))
      /\ LRUCache.size (snd r) = (LRUCache.size self + 1)%Z).
Proof.
  intros self.
  apply (X5_put_new_key_below_capacity
           self "b" (VInt 2) (Some 5%Z) (Examples.at_time 7)).
  - reflexivity.
  - reflexivity.
Defined.

(** X6: a [put] of a new key into a full cache evicts the first key of the
    dictionary and nothing else, whatever the expiries are (an entry that
    has expired but has not been looked up since is not preferred): the
    first key is gone and every other entry keeps its value and expiry.
    When the expiry computation succeeds the [put] returns, the new key
    holds the new entry and the number of entries is unchanged; when it
    raises ([OverflowError]), the eviction has already happened: the [put]
    raises, the new key is not stored and the cache has one entry less. *)
Theorem X6_put_new_key_at_capacity
  (self : LRUCache.t) (k0 : string) (e0 : LRUCache.entry)
  (rest : OrderedDict.t LRUCache.entry)
  (key : string) (v : value) (ttl : option Z) (now : PyFloat.float) :
  OrderedDict.unique_keys (LRUCache.cache self) = true ->
  LRUCache.cache self = (k0, e0) :: rest ->
  OrderedDict.contains key (LRUCache.cache self) = false ->
  (LRUCache.size self >= LRUCache.capacity self)%Z ->
  let r := LRUCache.put key v ttl now self in
  LRUCache.entry_of k0 (snd r) = None
  /\ (forall k, k <> k0 -> k <> key ->
        LRUCache.entry_of k (snd r) = LRUCache.entry_of k self)
  /\ match LRUCache.expiry_of ttl now with
     | Ok e =>
         fst r = Ok tt
         /\ LRUCache.entry_of key (snd r) = Some (v, e)
         /\ LRUCache.size (snd r) = LRUCache.size self
     | Raise err =>
         fst r = Raise err
         /\ LRUCache.entry_of key (snd r) = None
         /\ LRUCache.size (snd r) = (LRUCache.size self - 1)%Z
     end.
Proof.
  intros Hu Hd Hnew Hfull r.
  assert (Hr : r = match LRUCache.expiry_of ttl now with
                   | Ok e =>
                       (Ok tt,
                        LRUCache.Build (rest ++ [(key, (v, e))])
                                       (LRUCache.capacity self))
                   | Raise err =>
                       (Raise err,
                        LRUCache.Build rest (LRUCache.capacity self))
                   end).
  { unfold r. rewrite put_eq. cbv zeta. rewrite Hnew.
    unfold LRUCache.size in Hfull.
    assert (Hge : (OrderedDict.len (LRUCache.cache self)
                   >=? LRUCache.capacity self)%Z = true)
      by (apply Z.geb_le; lia).
    rewrite Hge, Hd. reflexivity. }
  rewrite Hr. unfold LRUCache.entry_of, LRUCache.size, OrderedDict.len.
  rewrite Hd in *.
  cbn [OrderedDict.unique_keys OrderedDict.contains] in Hu, Hnew.
  apply andb_true_iff in Hu. destruct Hu as [Hk0 Hu].
  destruct (String.eqb_spec key k0) as [|Hne0]; [discriminate|].
  assert (Hk0' : OrderedDict.lookup k0 rest = None).
  { rewrite contains_lookup in Hk0.
    destruct (OrderedDict.lookup k0 rest); [discriminate | reflexivity]. }
  assert (Hkey : OrderedDict.lookup key rest = None).
  { rewrite contains_lookup in Hnew.
    destruct (OrderedDict.lookup key rest); [discriminate | reflexivity]. }
  assert (Hother : forall k, k <> k0 ->
             OrderedDict.lookup k ((k0, e0) :: rest)
             = OrderedDict.lookup k rest).
  { intros k Hk. cbn [OrderedDict.lookup].
    destruct (String.eqb_spec k k0); [contradiction | reflexivity]. }
  destruct (LRUCache.expiry_of ttl now) as [e|err];
    cbn [fst snd LRUCache.cache].
  - split; [|split; [|split; [reflexivity|split]]].
    + rewrite lookup_snoc_other by congruence. exact Hk0'.
    + intros k Hk Hkk. rewrite lookup_snoc_other by exact Hkk.
      symmetry. apply Hother, Hk.
    + apply lookup_snoc_same, Hnew.
    + rewrite length_app. cbn [List.length]. lia.
  - split; [exact Hk0'|]. split; [|split; [reflexivity|split]].
    + intros k Hk _. symmetry. apply Hother, Hk.
    + exact Hkey.
    + cbn [List.length]. lia.
Qed.

Lemma X6_put_new_key_at_capacity_witness :
  let self :=
    LRUCache.Build [("a"%string, (VInt 1, None));
                    ("b"%string, (VInt 2, Some (Examples.at_time 3)))] 2 in
  let r := LRUCache.put "c" (VInt 3) (Some (2 ^ 1024)%Z)
                        (Examples.at_time 100) self in
  LRUCache.entry_of "a" (snd r) = None
  /\ (forall k, k <> "a"%string -> k <> "c"%string ->
        LRUCache.entry_of k (snd r) = LRUCache.entry_of k self)
  /\ (fst r = Raise (OverflowError "int too large to convert to float")
      /\ LRUCache.entry_of "c" (snd r) = None
      /\ LRUCache.size (snd r) = (LRUCache.size self - 1)%Z).
Proof.
  intros self.
  apply (X6_put_new_key_at_capacity
           self "a" (VInt 1, None)
           [("b"%string, (VInt 2, Some (Examples.at_time 3)))]
           "c" (VInt 3) (Some (2 ^ 1024)%Z) (Examples.at_time 100)).
  - reflexivity.
  - reflexivity.
  - reflexivity.
  - cbn. lia.
Defined.

(** X7: a hit protects its key from the next eviction. In a cache of at
    least two entries, after a [get] that hits [k], a [put] of any key not
    in the cache leaves [k] in the cache with its value and expiry, whether
    that [put] evicts or not and whether it returns or raises. *)
Theorem X7_hit_survives_next_put
  (self : LRUCache.t) (k : string) (v : value) (expiry : option PyFloat.float)
  (t1 : PyFloat.float)
  (key : string) (w : value) (ttl : option Z) (t2 : PyFloat.float) :
  OrderedDict.unique_keys (LRUCache.cache self) = true ->
  (2 <= LRUCache.size self)%Z ->
  LRUCache.entry_of k self = Some (v, expiry) ->
  LRUCache.expired expiry t1 = false ->
  OrderedDict.contains key (LRUCache.cache self) = false ->
  let s1 := snd (LRUCache.get k t1 self) in
  let r := LRUCache.put key w ttl t2 s1 in
  LRUCache.entry_of k (snd r) = Some (v, expiry).
Proof.
  intros Hu Hsize Hk He Hnew s1 r.
  assert (Hkc : OrderedDict.contains k (LRUCache.cache self) = true)
    by exact (lookup_present_contains _ _ _ Hk).
  assert (Hne : k <> key) by (intros ->; congruence).
  assert (Hs1 : s1 = LRUCache.Build
                       (OrderedDict.remove k (LRUCache.cache self)
                        ++ [(k, (v, expiry))])
                       (LRUCache.capacity self)).
  { unfold s1. rewrite (get_hit k t1 self v expiry Hk He). reflexivity. }
  pose proof (length_remove_unique k _ Hu Hkc) as Hlen.
  pose proof (lookup_remove_same k (LRUCache.cache self)) as Hgone.
  assert (Hnew' : OrderedDict.contains key (OrderedDict.remove k
                                              (LRUCache.cache self)) = false).
  { rewrite contains_remove_other by congruence. exact Hnew. }
  unfold LRUCache.size, OrderedDict.len in Hsize.
  destruct (OrderedDict.remove k (LRUCache.cache self)) as [|[k1 e1] d1];
    [cbn [List.length] in Hlen; lia|].
  cbn [OrderedDict.lookup] in Hgone. cbn [OrderedDict.contains] in Hnew'.
  destruct (String.eqb_spec k k1) as [|Hk1]; [discriminate|].
  destruct (String.eqb_spec key k1) as [|Hkey1]; [discriminate|].
  assert (Hin1 : OrderedDict.lookup k (d1 ++ [(k, (v, expiry))])
                 = Some (v, expiry)).
  { rewrite lookup_app, Hgone. cbn [OrderedDict.lookup].
    rewrite String.eqb_refl. reflexivity. }
  unfold r. rewrite put_eq, Hs1. cbv zeta.
  cbn [LRUCache.cache LRUCache.capacity].
  assert (Hc1 : OrderedDict.contains key
                  (((k1, e1) :: d1) ++ [(k, (v, expiry))]) = false).
  { rewrite contains_app. cbn [OrderedDict.contains].
    destruct (String.eqb_spec key k1); [contradiction|]. rewrite Hnew'.
    destruct (String.eqb_spec key k); [congruence | reflexivity]. }
  rewrite Hc1. unfold LRUCache.entry_of.
  destruct (OrderedDict.len _ >=? _)%Z;
    destruct (LRUCache.expiry_of ttl t2);
    cbn [app fst snd LRUCache.cache].
  - rewrite lookup_snoc_other by exact Hne. exact Hin1.
  - exact Hin1.
  - cbn [OrderedDict.lookup].
    destruct (String.eqb_spec k k1); [contradiction|].
    rewrite lookup_snoc_other by exact Hne. exact Hin1.
  - cbn [OrderedDict.lookup].
    destruct (String.eqb_spec k k1); [contradiction|]. exact Hin1.
Qed.

Lemma X7_hit_survives_next_put_witness :
  let self :=
    LRUCache.Build [("a"%string, (VInt 1, Some (Examples.at_time 50)));
                    ("b"%string, (VInt 2, None))] 2 in
  let s1 := snd (LRUCache.get "a" (Examples.at_time 20) self) in
  let r := LRUCache.put "c" (VInt 3) None (Examples.at_time 21) s1 in
  LRUCache.entry_of "a" (snd r) = Some (VInt 1, Some (Examples.at_time 50)).
Proof.
  intros self.
  apply (X7_hit_survives_next_put
           self "a" (VInt 1) (Some (Examples.at_time 50))
           (Examples.at_time 20) "c" (VInt 3) None (Examples.at_time 21)).
  - reflexivity.
  - cbn. lia.
  - reflexivity.
  - reflexivity.
  - reflexivity.
Defined.

(** * Further properties of the dispatcher *)

(** What [fetch] computes, in terms of the lookup [g] it starts with. *)
Lemma fetch_eq lib path ttl now_get now_put self :
  API.fetch lib path ttl now_get now_put self
  = let key := API.cache_key_of path in
    let g := LRUCache.get key now_get (API.cache self) in
    let mk := API.Build (API.base_url self)
                        (API.rust_core self ++ [API.CallFetch path])
                        (API.middleware self) in
    match fst g with
    | Raise e => (Raise e, API.with_cache self (snd g))
    | Ok cached =>
        if truthy cached then (Ok cached, API.with_cache self (snd g))
        else
          match API.rust_core_fetch lib (API.rust_core self) path with
          | Raise e => (Raise e, mk (snd g))
          | Ok d =>
              match API.for_middleware (API.middleware self) d with
              | Raise e => (Raise e, mk (snd g))
              | Ok d' =>
                  match ttl with
                  | None => (Ok d', mk (snd g))
                  | Some t =>
                      let p := LRUCache.put key d' (Some t) now_put (snd g) in
                      match fst p with
                      | Ok _ => (Ok d', mk (snd p))
                      | Raise e => (Raise e, mk (snd p))
                      end
                  end
              end
          end
    end.
Proof.
  cbv zeta. unfold API.fetch, bind, API.on_cache, API.with_cache.
  destruct (LRUCache.get (API.cache_key_of path) now_get (API.cache self))
    as [[cached|e] c1]; cbn [fst snd]; [|reflexivity].
  destruct (truthy cached); [reflexivity|].
  unfold API.call_lib, API._apply_middleware, read_state, lift, bind, ret.
  cbn [API.rust_core API.middleware API.base_url API.cache].
  destruct (API.rust_core_fetch lib (API.rust_core self) path) as [d|e];
    [|reflexivity].
  destruct (API.for_middleware (API.middleware self) d) as [d'|e];
    [|reflexivity].
  destruct ttl as [t|]; [|reflexivity].
  cbn [API.cache API.rust_core API.base_url API.middleware].
  destruct (LRUCache.put _ _ _ _ _) as [[[]|e] c2]; reflexivity.
Qed.

Lemma get_absent key now self :
  LRUCache.entry_of key self = None ->
  LRUCache.get key now self = (Ok VNone, self).
Proof.
  unfold LRUCache.entry_of. intros H. rewrite get_eq, H. reflexivity.
Qed.

Lemma with_cache_same self : API.with_cache self (API.cache self) = self.
Proof. destruct self. reflexivity. Qed.

(** X8: [fetch] without [cache_ttl] never stores anything. Whatever the
    outcome (hit, miss or exception), the cache it leaves is the cache its
    own lookup left, so every entry found afterwards was there before with
    the same value and expiry; and on a path whose key is absent the cache
    is left exactly as it was, the key still absent. *)
Theorem X8_fetch_without_ttl_stores_nothing
  (lib : API.Lib) (path : string) (now_get now_put : PyFloat.float) (self : API.t) :
  let key := API.cache_key_of path in
  let s' := snd (API.fetch lib path None now_get now_put self) in
  API.cache s' = snd (LRUCache.get key now_get (API.cache self))
  /\ (forall k e, LRUCache.entry_of k (API.cache s') = Some e ->
                  LRUCache.entry_of k (API.cache self) = Some e)
  /\ (LRUCache.entry_of key (API.cache self) = None ->
      API.cache s' = API.cache self).
Proof.
  cbv zeta.
  assert (H : API.cache (snd (API.fetch lib path None now_get now_put self))
              = snd (LRUCache.get (API.cache_key_of path) now_get
                                  (API.cache self))).
  { rewrite fetch_eq. cbv zeta.
    destruct (fst (LRUCache.get _ _ _)) as [cached|e]; [|reflexivity].
    destruct (truthy cached); [reflexivity|].
    destruct (API.rust_core_fetch _ _ _) as [d|e]; [|reflexivity].
    destruct (API.for_middleware _ _); reflexivity. }
  split; [exact H|]. split.
  - intros k e. rewrite H. apply get_entry_inv.
  - intros Habs. rewrite H, (get_absent _ _ _ Habs). reflexivity.
Qed.

(** The library is called, the pipeline run and its result stored. *)
Lemma fetch_miss_with_ttl
  (lib : API.Lib) (path : string) (ttl : Z) (now_get now_put : PyFloat.float)
  (self : API.t) (cached d d' : value) (e : option PyFloat.float) :
  (1 <= LRUCache.capacity (API.cache self))%Z ->
  fst (LRUCache.get (API.cache_key_of path) now_get (API.cache self))
  = Ok cached ->
  truthy cached = false ->
  API.rust_core_fetch lib (API.rust_core self) path = Ok d ->
  API.for_middleware (API.middleware self) d = Ok d' ->
  LRUCache.expiry_of (Some ttl) now_put = Ok e ->
  let r := API.fetch lib path (Some ttl) now_get now_put self in
  fst r = Ok d'
  /\ API.rust_core (snd r) = API.rust_core self ++ [API.CallFetch path]
  /\ LRUCache.entry_of (API.cache_key_of path) (API.cache (snd r))
     = Some (d', e).
Proof.
  intros Hcap Hg Hfalse Hlib Hmw Hexp r. unfold r.
  rewrite fetch_eq. cbv zeta. rewrite Hg, Hfalse, Hlib, Hmw.
  assert (Hc1 : (1 <= LRUCache.capacity
                        (snd (LRUCache.get (API.cache_key_of path) now_get
                                           (API.cache self))))%Z)
    by (rewrite get_capacity; exact Hcap).
  pose proof (put_result (API.cache_key_of path) d' (Some ttl) now_put _ Hc1)
    as Hput.
  rewrite Hexp in Hput.
  destruct (put_entry _ _ _ _ _ Hput) as (e' & He' & Hentry).
  rewrite Hexp in He'. injection He' as <-.
  rewrite Hput. cbn [fst snd API.rust_core API.cache].
  split; [reflexivity|]. split; [reflexivity | exact Hentry].
Qed.

(** X9: a [fetch] with [cache_ttl] on a path that is not served from the
    cache, when the library, the pipeline and the expiry computation
    succeed, calls the library once, returns the payload as the pipeline
    transformed it, and stores that transformed payload under
    ["GET:" + path] with the expiry computed from [cache_ttl] at the time of
    the [put]. *)
Theorem X9_fetch_with_ttl_stores_transformed_payload
  (lib : API.Lib) (path : string) (ttl : Z) (now_get now_put : PyFloat.float)
  (self : API.t) (cached d d' : value) (e : option PyFloat.float) :
  (1 <= LRUCache.capacity (API.cache self))%Z ->
  fst (LRUCache.get (API.cache_key_of path) now_get (API.cache self))
  = Ok cached ->
  truthy cached = false ->
  API.rust_core_fetch lib (API.rust_core self) path = Ok d ->
  API.for_middleware (API.middleware self) d = Ok d' ->
  LRUCache.expiry_of (Some ttl) now_put = Ok e ->
  let r := API.fetch lib path (Some ttl) now_get now_put self in
  fst r = Ok d'
  /\ API.rust_core (snd r) = API.rust_core self ++ [API.CallFetch path]
  /\ LRUCache.entry_of (API.cache_key_of path) (API.cache (snd r))
     = Some (d', e).
Proof.
  intros Hcap Hg Hfalse Hlib Hmw Hexp.
  exact (fetch_miss_with_ttl lib path ttl now_get now_put self cached d d' e
           Hcap Hg Hfalse Hlib Hmw Hexp).
Qed.

Lemma X9_fetch_with_ttl_stores_transformed_payload_witness :
  let lib := Examples.lib_const Examples.alice in
  let mw : API.middleware_t :=
    fun d => match d with
             | VDict items => Ok (VDict (items ++ [("cached"%string,
                                                    VBool true)]))
             | _ => Raise (Exception "TypeError" "not a dict")
             end in
  let self := API.Build "http://host" [] [mw] (LRUCache.Build [] 100) in
  let d' := VDict [("name"%string, VStr "Alice");
                   ("cached"%string, VBool true)] in
  let r := API.fetch lib "/users/1" (Some 60%Z) (Examples.at_time 0)
                     (Examples.at_time 1) self in
  fst r = Ok d'
  /\ API.rust_core (snd r) = API.rust_core self ++ [API.CallFetch "/users/1"]
  /\ LRUCache.entry_of (API.cache_key_of "/users/1") (API.cache (snd r))
     = Some (d', Some (Examples.at_time 61)).
Proof.
  intros lib mw self d'.
  apply (X9_fetch_with_ttl_stores_transformed_payload
           lib "/users/1" 60 (Examples.at_time 0) (Examples.at_time 1) self
           VNone Examples.alice d' (Some (Examples.at_time 61))).
  - cbn. lia.
  - reflexivity.
  - reflexivity.
  - reflexivity.
  - reflexivity.
  - reflexivity.
Defined.

(** X10: failures are not cached. When the path is not served from the
    cache and the library call (or the decoding of its answer) raises, or a
    middleware raises, [fetch] raises that exception after exactly one
    library call and stores nothing, with or without [cache_ttl]: the cache
    is as the lookup left it. *)
Theorem X10_fetch_failure_is_not_cached
  (lib : API.Lib) (path : string) (ttl : option Z) (now_get now_put : PyFloat.float)
  (self : API.t) (cached : value) (e : exn) :
  fst (LRUCache.get (API.cache_key_of path) now_get (API.cache self))
  = Ok cached ->
  truthy cached = false ->
  API.rust_core_fetch lib (API.rust_core self) path = Raise e
  \/ (exists d, API.rust_core_fetch lib (API.rust_core self) path = Ok d
                /\ API.for_middleware (API.middleware self) d = Raise e) ->
  let r := API.fetch lib path ttl now_get now_put self in
  fst r = Raise e
  /\ API.rust_core (snd r) = API.rust_core self ++ [API.CallFetch path]
  /\ API.cache (snd r)
     = snd (LRUCache.get (API.cache_key_of path) now_get (API.cache self)).
Proof.
  intros Hg Hfalse Hfail r. unfold r.
  rewrite fetch_eq. cbv zeta. rewrite Hg, Hfalse.
  destruct Hfail as [Hlib | [d [Hlib Hmw]]].
  - rewrite Hlib. repeat split.
  - rewrite Hlib, Hmw. repeat split.
Qed.

Lemma X10_fetch_failure_is_not_cached_witness :
  let lib :=
    {| API.rust_core_fetch :=
         fun _ _ => Raise (Exception "JSONDecodeError" "bad json");
       API.rust_core_send := fun _ _ _ _ => Ok VNone;
       API.json_dumps := fun _ => Ok "{}"%string |} in
  let r := API.fetch lib "/x" (Some 60%Z) (Examples.at_time 0)
                     (Examples.at_time 0) Examples.api0 in
  fst r = Raise (Exception "JSONDecodeError" "bad json")
  /\ API.rust_core (snd r)
     = API.rust_core Examples.api0 ++ [API.CallFetch "/x"]
  /\ API.cache (snd r)
     = snd (LRUCache.get (API.cache_key_of "/x") (Examples.at_time 0)
                         (API.cache Examples.api0)).
Proof.
  intros lib.
  apply (X10_fetch_failure_is_not_cached
           lib "/x" (Some 60%Z) (Examples.at_time 0) (Examples.at_time 0)
           Examples.api0 VNone
           (Exception "JSONDecodeError" "bad json")).
  - reflexivity.
  - reflexivity.
  - left. reflexivity.
Defined.

(** A lookup that serves nothing leads to exactly one library call. *)
Lemma fetch_miss_log lib path ttl now_get now_put self cached :
  fst (LRUCache.get (API.cache_key_of path) now_get (API.cache self))
  = Ok cached ->
  truthy cached = false ->
  API.rust_core (snd (API.fetch lib path ttl now_get now_put self))
  = API.rust_core self ++ [API.CallFetch path].
Proof.
  intros Hg Hfalse. rewrite fetch_eq. cbv zeta. rewrite Hg, Hfalse.
  destruct (API.rust_core_fetch _ _ _) as [d|e]; [|reflexivity].
  destruct (API.for_middleware _ _) as [d'|e]; [|reflexivity].
  destruct ttl as [t|]; [|reflexivity].
  cbv zeta. destruct (fst (LRUCache.put _ _ _ _ _)); reflexivity.
Qed.

(** X11: caching end to end. After a [fetch] with [cache_ttl] that went to
    the library, got a payload that is true in a boolean context and stored
    it (the expiry computation succeeded, with expiry [e]), a second
    [fetch] of the same path (with any [cache_ttl], under any middleware
    added since) at a time when [e] passes the expiry test returns that
    same payload and makes no further library call. *)
Theorem X11_second_fetch_is_served_from_cache
  (lib : API.Lib) (path : string) (ttl : Z) (now_get now_put : PyFloat.float)
  (self : API.t) (cached d d' : value) (e : option PyFloat.float)
  (mws : list API.middleware_t)
  (ttl2 : option Z) (now_get2 now_put2 : PyFloat.float) :
  (1 <= LRUCache.capacity (API.cache self))%Z ->
  fst (LRUCache.get (API.cache_key_of path) now_get (API.cache self))
  = Ok cached ->
  truthy cached = false ->
  API.rust_core_fetch lib (API.rust_core self) path = Ok d ->
  API.for_middleware (API.middleware self) d = Ok d' ->
  truthy d' = true ->
  LRUCache.expiry_of (Some ttl) now_put = Ok e ->
  LRUCache.expired e now_get2 = false ->
  let s1 := snd (API.fetch lib path (Some ttl) now_get now_put self) in
  let s2 := fold_left (fun s mw => snd (API.add_middleware mw s)) mws s1 in
  let r2 := API.fetch lib path ttl2 now_get2 now_put2 s2 in
  LRUCache.entry_of (API.cache_key_of path) (API.cache s1) = Some (d', e)
  /\ fst r2 = Ok d'
  /\ API.rust_core (snd r2) = API.rust_core self ++ [API.CallFetch path].
Proof.
  intros Hcap Hg Hfalse Hlib Hmw Htrue Hexp Hlive s1 s2 r2.
  destruct (fetch_miss_with_ttl
              lib path ttl now_get now_put self cached d d' e
              Hcap Hg Hfalse Hlib Hmw Hexp) as (_ & Hlog & Hentry).
  fold s1 in Hlog, Hentry.
  assert (Hs2 : API.rust_core s2 = API.rust_core s1
                /\ API.cache s2 = API.cache s1).
  { unfold s2. generalize s1. induction mws as [|mw mws IH]; intros s.
    - split; reflexivity.
    - cbn [fold_left]. destruct (IH (snd (API.add_middleware mw s))) as [-> ->].
      split; reflexivity. }
  destruct Hs2 as [Hlog2 Hcache2].
  split; [exact Hentry|].
  rewrite <- Hcache2 in Hentry.
  unfold r2.
  rewrite (fetch_hit_truthy lib path ttl2 now_get2 now_put2 s2 d' _
             Hentry Hlive Htrue).
  cbn [fst snd API.with_cache API.rust_core].
  split; [reflexivity|]. rewrite Hlog2. exact Hlog.
Qed.

Lemma X11_second_fetch_is_served_from_cache_witness :
  let lib := Examples.lib_const Examples.alice in
  let mw : API.middleware_t := fun _ => Ok (VStr "changed") in
  let s1 := snd (API.fetch lib "/users/1" (Some 60%Z) (Examples.at_time 0)
                           (Examples.at_time 0) Examples.api0) in
  let s2 := fold_left (fun s mw => snd (API.add_middleware mw s)) [mw] s1 in
  let r2 := API.fetch lib "/users/1" None (Examples.at_time 60)
                      (Examples.at_time 60) s2 in
  LRUCache.entry_of (API.cache_key_of "/users/1") (API.cache s1)
  = Some (Examples.alice, Some (Examples.at_time 60))
  /\ fst r2 = Ok Examples.alice
  /\ API.rust_core (snd r2)
     = API.rust_core Examples.api0 ++ [API.CallFetch "/users/1"].
Proof.
  intros lib mw.
  apply (X11_second_fetch_is_served_from_cache
           lib "/users/1" 60 (Examples.at_time 0) (Examples.at_time 0)
           Examples.api0 VNone Examples.alice Examples.alice
           (Some (Examples.at_time 60)) [mw] None
           (Examples.at_time 60) (Examples.at_time 60)).
  - cbn. lia.
  - reflexivity.
  - reflexivity.
  - reflexivity.
  - reflexivity.
  - reflexivity.
  - reflexivity.
  - reflexivity.
Defined.

(** X12: after the stored expiry has passed the path is fetched again.
    After a [fetch] with [cache_ttl] that went to the library and stored
    its result with an expiry [e] that is not zero, a second [fetch] of the
    same path at a time [t] with [t > e] calls the library a second
    time. *)
Theorem X12_fetch_after_expiry_calls_library_again
  (lib : API.Lib) (path : string) (ttl : Z) (now_get now_put : PyFloat.float)
  (self : API.t) (cached d d' : value) (e : PyFloat.float)
  (ttl2 : option Z) (now_get2 now_put2 : PyFloat.float) :
  (1 <= LRUCache.capacity (API.cache self))%Z ->
  fst (LRUCache.get (API.cache_key_of path) now_get (API.cache self))
  = Ok cached ->
  truthy cached = false ->
  API.rust_core_fetch lib (API.rust_core self) path = Ok d ->
  API.for_middleware (API.middleware self) d = Ok d' ->
  LRUCache.expiry_of (Some ttl) now_put = Ok (Some e) ->
  PyFloat.truthy e = true ->
  PyFloat.gt now_get2 e = true ->
  let s1 := snd (API.fetch lib path (Some ttl) now_get now_put self) in
  let r2 := API.fetch lib path ttl2 now_get2 now_put2 s1 in
  API.rust_core (snd r2)
  = API.rust_core self ++ [API.CallFetch path; API.CallFetch path].
Proof.
  intros Hcap Hg Hfalse Hlib Hmw Hexp Htrue Hlate s1 r2.
  destruct (fetch_miss_with_ttl
              lib path ttl now_get now_put self cached d d' (Some e)
              Hcap Hg Hfalse Hlib Hmw Hexp) as (_ & Hlog & Hentry).
  fold s1 in Hlog, Hentry.
  assert (Hget : fst (LRUCache.get (API.cache_key_of path) now_get2
                                   (API.cache s1)) = Ok VNone).
  { rewrite get_eq. unfold LRUCache.entry_of in Hentry. rewrite Hentry.
    unfold LRUCache.expired, truthy_expiry. rewrite Htrue, Hlate.
    reflexivity. }
  unfold r2.
  rewrite (fetch_miss_log lib path ttl2 now_get2 now_put2 s1 VNone
             Hget eq_refl).
  rewrite Hlog, <- app_assoc. reflexivity.
Qed.

Lemma X12_fetch_after_expiry_calls_library_again_witness :
  let lib := Examples.lib_const Examples.alice in
  let s1 := snd (API.fetch lib "/users/1" (Some 60%Z) (Examples.at_time 0)
                           (Examples.at_time 0) Examples.api0) in
  let r2 := API.fetch lib "/users/1" None (Examples.at_time 61)
                      (Examples.at_time 61) s1 in
  API.rust_core (snd r2)
  = API.rust_core Examples.api0
    ++ [API.CallFetch "/users/1"; API.CallFetch "/users/1"].
Proof.
  intros lib.
  apply (X12_fetch_after_expiry_calls_library_again
           lib "/users/1" 60 (Examples.at_time 0) (Examples.at_time 0)
           Examples.api0 VNone Examples.alice Examples.alice
           (Examples.at_time 60) None
           (Examples.at_time 61) (Examples.at_time 61)).
  - cbn. lia.
  - reflexivity.
  - reflexivity.
  - reflexivity.
  - reflexivity.
  - reflexivity.
  - reflexivity.
  - reflexivity.
Defined.

Lemma invalidate_frame path self :
  let r := API.invalidate_cache path self in
  fst r = Ok tt
  /\ API.rust_core (snd r) = API.rust_core self
  /\ API.middleware (snd r) = API.middleware self
  /\ API.base_url (snd r) = API.base_url self
  /\ LRUCache.capacity (API.cache (snd r)) = LRUCache.capacity (API.cache self).
Proof.
  cbv zeta. unfold API.invalidate_cache.
  destruct (truthy_str path) eqn:Ht.
  - destruct path as [p|]; [|discriminate].
    unfold API.on_cache, bind, read_state, lift, ret, LRUCache.set_cache,
      OrderedDict.delitem.
    destruct (OrderedDict.contains _ _); repeat split.
  - repeat split.
Qed.

Lemma invalidate_removes_key path self :
  LRUCache.entry_of (API.cache_key_of path)
    (API.cache (snd (API.invalidate_cache (Some path) self))) = None.
Proof.
  destruct (String.eqb_spec path "") as [->|Hne].
  - reflexivity.
  - rewrite (invalidate_given path self Hne). apply lookup_remove_same.
Qed.

(** X13: invalidation forces the next [fetch] to the library. After
    [invalidate_cache(path)], for any path, the empty one included, and
    after [invalidate_cache()], [fetch] of the path calls the library,
    whatever the cache held before. *)
Theorem X13_fetch_after_invalidate_calls_library
  (lib : API.Lib) (path : string) (ttl : option Z) (now_get now_put : PyFloat.float)
  (self : API.t) :
  API.rust_core
    (snd (API.fetch lib path ttl now_get now_put
            (snd (API.invalidate_cache (Some path) self))))
  = API.rust_core self ++ [API.CallFetch path]
  /\ API.rust_core
       (snd (API.fetch lib path ttl now_get now_put
               (snd (API.invalidate_cache None self))))
     = API.rust_core self ++ [API.CallFetch path].
Proof.
  split.
  - destruct (invalidate_frame (Some path) self) as (_ & Hlog & _).
    cbv zeta in Hlog. rewrite <- Hlog.
    apply fetch_miss_log with (cached := VNone); [|reflexivity].
    rewrite (get_absent _ _ _ (invalidate_removes_key path self)).
    reflexivity.
  - destruct (invalidate_frame None self) as (_ & Hlog & _).
    cbv zeta in Hlog. rewrite <- Hlog.
    apply fetch_miss_log with (cached := VNone); reflexivity.
Qed.

Lemma cache_key_of_inj p q :
  API.cache_key_of p = API.cache_key_of q -> p = q.
Proof. unfold API.cache_key_of. cbn. intros H. congruence. Qed.

(** X14: invalidating one path leaves the other paths cached. For a
    non-empty [path], [invalidate_cache(path)] returns normally, makes no
    library call, and keeps the entry of every other path [q] with its
    value and expiry; the entry of [path] is gone, and when there was none
    the object is left exactly as it was. *)
Theorem X14_invalidate_is_scoped_to_its_path
  (path : string) (self : API.t) :
  path <> ""%string ->
  let r := API.invalidate_cache (Some path) self in
  fst r = Ok tt
  /\ API.rust_core (snd r) = API.rust_core self
  /\ LRUCache.entry_of (API.cache_key_of path) (API.cache (snd r)) = None
  /\ (forall q, q <> path ->
        LRUCache.entry_of (API.cache_key_of q) (API.cache (snd r))
        = LRUCache.entry_of (API.cache_key_of q) (API.cache self))
  /\ (LRUCache.entry_of (API.cache_key_of path) (API.cache self) = None ->
      snd r = self).
Proof.
  intros Hp r.
  destruct (invalidate_frame (Some path) self) as (Hok & Hlog & _).
  destruct (invalidate_scoped path self Hp) as (Hgone & Hother & Hsame).
  cbv zeta in *. unfold r.
  split; [exact Hok|]. split; [exact Hlog|]. split; [exact Hgone|].
  split; [|exact Hsame].
  intros q Hq. apply Hother. intros Heq. apply Hq.
  apply cache_key_of_inj, Heq.
Qed.

Lemma X14_invalidate_is_scoped_to_its_path_witness :
  let lib := Examples.lib_const Examples.alice in
  let s1 := snd (API.fetch lib "/a" (Some 60%Z) (Examples.at_time 0)
                           (Examples.at_time 0) Examples.api0) in
  let self := snd (API.fetch lib "/b" (Some 60%Z) (Examples.at_time 1)
                             (Examples.at_time 1) s1) in
  let r := API.invalidate_cache (Some "/a"%string) self in
  fst r = Ok tt
  /\ API.rust_core (snd r) = API.rust_core self
  /\ LRUCache.entry_of (API.cache_key_of "/a") (API.cache (snd r)) = None
  /\ (forall q, q <> "/a"%string ->
        LRUCache.entry_of (API.cache_key_of q) (API.cache (snd r))
        = LRUCache.entry_of (API.cache_key_of q) (API.cache self))
  /\ (LRUCache.entry_of (API.cache_key_of "/a") (API.cache self) = None ->
      snd r = self).
Proof.
  intros lib s1 self.
  apply (X14_invalidate_is_scoped_to_its_path "/a" self).
  discriminate.
Defined.

Lemma X8_fetch_without_ttl_stores_nothing_witness :
  let lib := Examples.lib_const Examples.alice in
  let s' := snd (API.fetch lib "/x" None (Examples.at_time 0)
                           (Examples.at_time 0) Examples.api0) in
  API.cache s'
  = snd (LRUCache.get (API.cache_key_of "/x") (Examples.at_time 0)
                      (API.cache Examples.api0))
  /\ (forall k e, LRUCache.entry_of k (API.cache s') = Some e ->
                  LRUCache.entry_of k (API.cache Examples.api0) = Some e)
  /\ (LRUCache.entry_of (API.cache_key_of "/x") (API.cache Examples.api0)
      = None ->
      API.cache s' = API.cache Examples.api0).
Proof.
  intros lib.
  exact (X8_fetch_without_ttl_stores_nothing
           lib "/x" (Examples.at_time 0) (Examples.at_time 0) Examples.api0).
Defined.

(** X15: the cache invariant holds over the whole life of an [API] object.
    From [API(base_url, c)] with [c >= 1], after any sequence of [fetch],
    [send], [invalidate_cache] and [add_middleware] calls (whatever the
    library answers, whatever raises on the way), the cache has distinct
    keys, at most [c] entries and capacity [c], and [base_url] is
    unchanged. *)
Theorem X15_api_keeps_cache_invariant
  (lib : API.Lib) (base_url : string) (c : Z) (self : API.t)
  (ops : list Runs.api_op) :
  (1 <= c)%Z ->
  API.init base_url c = Ok self ->
  let s := Runs.api_run lib ops self in
  OrderedDict.unique_keys (LRUCache.cache (API.cache s)) = true
  /\ (LRUCache.size (API.cache s) <= c)%Z
  /\ LRUCache.capacity (API.cache s) = c
  /\ API.base_url s = base_url.
Proof.
  intros Hc Hinit. injection Hinit as <-. cbv zeta.
  assert (Hstep : forall o s0,
             LRUCache.capacity (API.cache s0) = c ->
             Runs.cache_ok (API.cache s0) ->
             LRUCache.capacity (API.cache (snd (Runs.api_step lib o s0))) = c
             /\ Runs.cache_ok (API.cache (snd (Runs.api_step lib o s0)))
             /\ API.base_url (snd (Runs.api_step lib o s0))
                = API.base_url s0).
  { intros o s0 Hcap Hok.
    destruct o as [path ttl ng np | path method data | path | mw];
      cbn [Runs.api_step].
    - rewrite fetch_eq. cbv zeta.
      pose proof (get_capacity (API.cache_key_of path) ng (API.cache s0))
        as Hgc.
      pose proof (get_cache_ok (API.cache_key_of path) ng _ Hok) as Hgok.
      assert (Hpc : forall d' t,
                 LRUCache.capacity
                   (snd (LRUCache.put (API.cache_key_of path) d' (Some t) np
                           (snd (LRUCache.get (API.cache_key_of path) ng
                                              (API.cache s0))))) = c)
        by (intros d' t; rewrite put_capacity; congruence).
      assert (Hpok : forall d' t,
                 Runs.cache_ok
                   (snd (LRUCache.put (API.cache_key_of path) d' (Some t) np
                           (snd (LRUCache.get (API.cache_key_of path) ng
                                              (API.cache s0))))))
        by (intros d' t; apply put_cache_ok; assumption).
      assert (Hgc' : LRUCache.capacity
                       (snd (LRUCache.get (API.cache_key_of path) ng
                                          (API.cache s0))) = c)
        by congruence.
      destruct (fst (LRUCache.get _ _ _)) as [cached|e];
        [destruct (truthy cached);
         [|destruct (API.rust_core_fetch _ _ _) as [d|e];
           [destruct (API.for_middleware _ _) as [d'|e];
            [destruct ttl as [t|];
             [cbv zeta; destruct (fst (LRUCache.put _ _ _ _ _))|]|]|]]|];
        cbn [snd API.cache API.with_cache API.base_url];
        (split; [auto | split; [auto | reflexivity]]).
    - rewrite send_eq.
      destruct (API.for_middleware _ _) as [d'|e];
        [destruct (API.json_dumps lib d')|];
        repeat split; try assumption; apply Hok.
    - destruct (invalidate_frame path s0) as (Hr & _ & _ & Hurl & Hcap').
      cbv zeta in *. unfold bind, ret.
      destruct (API.invalidate_cache path s0) as [r s'] eqn:Hinv.
      cbn [fst snd] in *. subst r. cbn [snd].
      split; [congruence|]. split; [|exact Hurl].
      assert (Hs' : s' = snd (API.invalidate_cache path s0))
        by (rewrite Hinv; reflexivity).
      destruct Hok as [Hu Hs].
      destruct (truthy_str path) eqn:Ht.
      + destruct path as [p|]; [|discriminate].
        assert (Hp : p <> ""%string).
        { intros ->. discriminate. }
        rewrite (invalidate_given p s0 Hp) in Hs'. subst s'.
        cbn [snd API.with_cache API.cache]. split.
        * apply unique_keys_remove, Hu.
        * unfold LRUCache.size, OrderedDict.len in *.
          cbn [LRUCache.cache LRUCache.capacity].
          pose proof (length_remove_le (API.cache_key_of p)
                        (LRUCache.cache (API.cache s0))). lia.
      + unfold API.invalidate_cache in Hs'. rewrite Ht in Hs'. subst s'.
        split; [reflexivity|].
        unfold LRUCache.size, OrderedDict.len. cbn. lia.
    - repeat split; try assumption; apply Hok. }
  assert (Hgen : forall ops s0,
             LRUCache.capacity (API.cache s0) = c ->
             Runs.cache_ok (API.cache s0) ->
             LRUCache.capacity (API.cache (Runs.api_run lib ops s0)) = c
             /\ Runs.cache_ok (API.cache (Runs.api_run lib ops s0))
             /\ API.base_url (Runs.api_run lib ops s0) = API.base_url s0).
  { clear ops. induction ops as [|o ops IH]; intros s0 Hcap Hok.
    - repeat split; try assumption; apply Hok.
    - unfold Runs.api_run. cbn [fold_left].
      destruct (Hstep o s0 Hcap Hok) as (Hcap' & Hok' & Hurl').
      destruct (IH _ Hcap' Hok') as (H1 & H2 & H3).
      split; [exact H1|]. split; [exact H2|].
      unfold Runs.api_run in H3. rewrite H3. exact Hurl'. }
  destruct (Hgen ops (API.Build base_url [] [] (LRUCache.Build [] c)))
    as (Hcap & [Hu Hs] & Hurl).
  - reflexivity.
  - split; [reflexivity | cbn; lia].
  - split; [exact Hu|]. split; [lia|]. split; [exact Hcap | exact Hurl].
Qed.

Lemma X15_api_keeps_cache_invariant_witness :
  let lib := Examples.lib_const Examples.alice in
  let self := API.Build "http://host" [] [] (LRUCache.Build [] 1) in
  let ops :=
    [Runs.OFetch "/a" (Some 60%Z) (Examples.at_time 0) (Examples.at_time 0);
     Runs.OFetch "/b" (Some (2 ^ 1024)%Z) (Examples.at_time 1)
                 (Examples.at_time 1);
     Runs.OSend "/a" "POST" (VDict []); Runs.OInvalidate (Some "/b"%string);
     Runs.OFetch "/a" None (Examples.at_time 2) (Examples.at_time 2)] in
  let s := Runs.api_run lib ops self in
  OrderedDict.unique_keys (LRUCache.cache (API.cache s)) = true
  /\ (LRUCache.size (API.cache s) <= 1)%Z
  /\ LRUCache.capacity (API.cache s) = 1%Z
  /\ API.base_url s = "http://host"%string.
Proof.
  intros lib self ops.
  apply (X15_api_keeps_cache_invariant lib "http://host" 1 self ops).
  - lia.
  - reflexivity.
Defined.

Lemma for_middleware_app ms1 ms2 x :
  API.for_middleware (ms1 ++ ms2) x
  = match API.for_middleware ms1 x with
    | Ok y => API.for_middleware ms2 y
    | Raise e => Raise e
    end.
Proof.
  revert x. induction ms1 as [|m ms1 IH]; intros x; [reflexivity|].
  cbn [app API.for_middleware].
  destruct (m x) as [y|e]; [apply IH | reflexivity].
Qed.

(** X16: the pipeline of a concatenated list is the pipeline of the first
    part followed by the pipeline of the second on its output; and a
    transform that raises stops the pipeline: the transforms after it are
    not applied and [_apply_middleware] raises its exception, leaving the
    object as it was. *)
Theorem X16_pipeline_composes_and_aborts
  (ms1 ms2 : list API.middleware_t) (m : API.middleware_t)
  (x y : value) (e : exn) (self : API.t) :
  API.for_middleware ms1 x = Ok y ->
  m y = Raise e ->
  API.middleware self = ms1 ++ m :: ms2 ->
  API.for_middleware (ms1 ++ ms2) x = API.for_middleware ms2 y
  /\ API.for_middleware (ms1 ++ m :: ms2) x = Raise e
  /\ API._apply_middleware x self = (Raise e, self).
Proof.
  intros H1 Hm Hself.
  assert (Habort : API.for_middleware (ms1 ++ m :: ms2) x = Raise e).
  { rewrite for_middleware_app, H1. cbn [API.for_middleware].
    rewrite Hm. reflexivity. }
  split; [rewrite for_middleware_app, H1; reflexivity|].
  split; [exact Habort|].
  unfold API._apply_middleware, bind, read_state, lift.
  rewrite Hself, Habort. reflexivity.
Qed.

Lemma X16_pipeline_composes_and_aborts_witness :
  let add1 : API.middleware_t :=
    fun d => match d with
             | VInt n => Ok (VInt (n + 1))
             | _ => Raise (Exception "TypeError" "not an int")
             end in
  let to_str : API.middleware_t := fun _ => Ok (VStr "done") in
  let self := API.Build "http://host" [] ([to_str] ++ add1 :: [to_str])
                        (LRUCache.Build [] 100) in
  API.for_middleware ([to_str] ++ [to_str]) (VInt 0)
  = API.for_middleware [to_str] (VStr "done")
  /\ API.for_middleware ([to_str] ++ add1 :: [to_str]) (VInt 0)
     = Raise (Exception "TypeError" "not an int")
  /\ API._apply_middleware (VInt 0) self
     = (Raise (Exception "TypeError" "not an int"), self).
Proof.
  intros add1 to_str self.
  apply (X16_pipeline_composes_and_aborts
           [to_str] [to_str] add1 (VInt 0) (VStr "done")
           (Exception "TypeError" "not an int") self).
  - reflexivity.
  - reflexivity.
  - reflexivity.
Defined.

(** X17: a hit ignores the [cache_ttl] of the call. When the entry of the
    path is present, passes the expiry test and holds a value that is true
    in a boolean context, [fetch] with any [cache_ttl] returns that value
    with no library call and leaves every entry, the one hit included, with
    the value and expiry it had: the lifetime of the entry is not renewed.
    Only the recency changes, the key becoming the most recently used. *)
Theorem X17_hit_does_not_renew_ttl
  (lib : API.Lib) (path : string) (ttl : option Z) (now_get now_put : PyFloat.float)
  (self : API.t) (v : value) (expiry : option PyFloat.float) :
  LRUCache.entry_of (API.cache_key_of path) (API.cache self)
  = Some (v, expiry) ->
  LRUCache.expired expiry now_get = false ->
  truthy v = true ->
  let r := API.fetch lib path ttl now_get now_put self in
  fst r = Ok v
  /\ API.rust_core (snd r) = API.rust_core self
  /\ API.middleware (snd r) = API.middleware self
  /\ (forall k, LRUCache.entry_of k (API.cache (snd r))
                = LRUCache.entry_of k (API.cache self))
  /\ OrderedDict.last_key (LRUCache.cache (API.cache (snd r)))
     = Some (API.cache_key_of path).
Proof.
  intros Hk He Hv r. unfold r.
  rewrite (fetch_hit_truthy lib path ttl now_get now_put self v expiry
             Hk He Hv).
  rewrite (get_hit _ now_get _ v expiry Hk He).
  cbn [fst snd API.with_cache API.rust_core API.middleware API.cache].
  unfold LRUCache.entry_of in *. cbn [LRUCache.cache].
  split; [reflexivity|]. split; [reflexivity|]. split; [reflexivity|].
  split; [|apply last_key_snoc].
  intros k. apply (lookup_move _ k _ _ Hk).
Qed.

Lemma X17_hit_does_not_renew_ttl_witness :
  let lib := Examples.lib_const (VStr "fresh") in
  let self :=
    API.Build "http://host" [] []
      (LRUCache.Build [("GET:/a"%string,
                        (Examples.alice, Some (Examples.at_time 60)));
                       ("GET:/b"%string, (VInt 2, None))] 2) in
  let r := API.fetch lib "/a" (Some 3600%Z) (Examples.at_time 59)
                     (Examples.at_time 59) self in
  fst r = Ok Examples.alice
  /\ API.rust_core (snd r) = API.rust_core self
  /\ API.middleware (snd r) = API.middleware self
  /\ (forall k, LRUCache.entry_of k (API.cache (snd r))
                = LRUCache.entry_of k (API.cache self))
  /\ OrderedDict.last_key (LRUCache.cache (API.cache (snd r)))
     = Some (API.cache_key_of "/a").
Proof.
  intros lib self.
  apply (X17_hit_does_not_renew_ttl
           lib "/a" (Some 3600%Z) (Examples.at_time 59) (Examples.at_time 59)
           self Examples.alice (Some (Examples.at_time 60))).
  - reflexivity.
  - reflexivity.
  - reflexivity.
Defined.

(** X18: what each method leaves alone. [fetch] makes at most one library
    call, a read of its own path, and never a write; [send] makes at most
    one, a write with its own path and method, and never touches the cache;
    [invalidate_cache] and [add_middleware] make none. Only
    [add_middleware] changes the middleware list, by appending, and it does
    not touch the cache. *)
Theorem X18_method_frames (lib : API.Lib) (o : Runs.api_op) (self : API.t) :
  let s' := snd (Runs.api_step lib o self) in
  match o with
  | Runs.OFetch path _ _ _ =>
      (API.rust_core s' = API.rust_core self
       \/ API.rust_core s' = API.rust_core self ++ [API.CallFetch path])
      /\ API.middleware s' = API.middleware self
  | Runs.OSend path method _ =>
      (API.rust_core s' = API.rust_core self
       \/ exists json_data,
            API.rust_core s'
            = API.rust_core self ++ [API.CallSend path method json_data])
      /\ API.middleware s' = API.middleware self
      /\ API.cache s' = API.cache self
  | Runs.OInvalidate _ =>
      API.rust_core s' = API.rust_core self
      /\ API.middleware s' = API.middleware self
  | Runs.OAddMiddleware mw =>
      API.rust_core s' = API.rust_core self
      /\ API.middleware s' = API.middleware self ++ [mw]
      /\ API.cache s' = API.cache self
  end.
Proof.
  cbv zeta. destruct o as [path ttl ng np | path method data | path | mw];
    cbn [Runs.api_step].
  - rewrite fetch_eq. cbv zeta.
    destruct (fst (LRUCache.get _ _ _)) as [cached|e];
      [destruct (truthy cached);
       [|destruct (API.rust_core_fetch _ _ _) as [d|e];
         [destruct (API.for_middleware _ _) as [d'|e];
          [destruct ttl as [t|];
           [cbv zeta; destruct (fst (LRUCache.put _ _ _ _ _))|]|]|]]|];
      cbn [snd API.with_cache API.rust_core API.middleware];
      (split; [auto | reflexivity]).
  - rewrite send_eq.
    destruct (API.for_middleware _ _) as [d'|e];
      [destruct (API.json_dumps lib d') as [j|e]|]; cbn [snd].
    + split; [right; exists j; reflexivity | split; reflexivity].
    + split; [left; reflexivity | split; reflexivity].
    + split; [left; reflexivity | split; reflexivity].
  - destruct (invalidate_frame path self) as (Hr & Hlog & Hmw & _).
    cbv zeta in *. unfold bind, ret.
    destruct (API.invalidate_cache path self) as [r s'].
    cbn [fst snd] in *. subst r. cbn [snd]. split; assumption.
  - repeat split.
Qed.

(** After a [put] that raised, its key is not in the cache. *)
Lemma put_raise_entry key v ttl now self err :
  fst (LRUCache.put key v ttl now self) = Raise err ->
  LRUCache.entry_of key (snd (LRUCache.put key v ttl now self)) = None.
Proof.
  assert (Habs : forall d : OrderedDict.t LRUCache.entry,
             OrderedDict.contains key d = false ->
             OrderedDict.lookup key d = None).
  { intros d H. rewrite contains_lookup in H.
    destruct (OrderedDict.lookup key d); [discriminate | reflexivity]. }
  unfold LRUCache.entry_of. rewrite put_eq. cbv zeta.
  destruct self as [d c]. cbn [LRUCache.cache LRUCache.capacity].
  destruct (OrderedDict.contains key d) eqn:Hc.
  - destruct (LRUCache.expiry_of ttl now); [discriminate|].
    intros _. apply lookup_remove_same.
  - destruct (OrderedDict.len d >=? c)%Z.
    + destruct d as [|[k0 e0] d']; [reflexivity|].
      destruct (LRUCache.expiry_of ttl now); [discriminate|].
      intros _. cbn [snd LRUCache.cache]. apply Habs.
      simpl in Hc. destruct (key =? k0)%string; [discriminate | exact Hc].
    + destruct (LRUCache.expiry_of ttl now); [discriminate|].
      intros _. apply Habs, Hc.
Qed.

(** X19: a [cache_ttl] that does not convert to a float. When the path is
    not served from the cache and the library and the pipeline succeed, a
    [fetch] whose expiry computation raises ([OverflowError], for an [int]
    out of the float range) raises that exception after its one library
    call: the payload is not returned and nothing is stored under
    ["GET:" + path]. *)
Theorem X19_fetch_with_unconvertible_ttl
  (lib : API.Lib) (path : string) (ttl : Z) (now_get now_put : PyFloat.float)
  (self : API.t) (cached d d' : value) (err : exn) :
  (1 <= LRUCache.capacity (API.cache self))%Z ->
  fst (LRUCache.get (API.cache_key_of path) now_get (API.cache self))
  = Ok cached ->
  truthy cached = false ->
  API.rust_core_fetch lib (API.rust_core self) path = Ok d ->
  API.for_middleware (API.middleware self) d = Ok d' ->
  LRUCache.expiry_of (Some ttl) now_put = Raise err ->
  let r := API.fetch lib path (Some ttl) now_get now_put self in
  fst r = Raise err
  /\ Runs.is_overflow err = true
  /\ API.rust_core (snd r) = API.rust_core self ++ [API.CallFetch path]
  /\ LRUCache.entry_of (API.cache_key_of path) (API.cache (snd r)) = None.
Proof.
  intros Hcap Hg Hfalse Hlib Hmw Hexp r. unfold r.
  rewrite fetch_eq. cbv zeta. rewrite Hg, Hfalse, Hlib, Hmw.
  assert (Hc1 : (1 <= LRUCache.capacity
                        (snd (LRUCache.get (API.cache_key_of path) now_get
                                           (API.cache self))))%Z)
    by (rewrite get_capacity; exact Hcap).
  pose proof (put_result (API.cache_key_of path) d' (Some ttl) now_put _ Hc1)
    as Hput.
  rewrite Hexp in Hput.
  pose proof (put_raise_entry _ _ _ _ _ _ Hput) as Hentry.
  rewrite Hput. cbn [fst snd API.rust_core API.cache].
  split; [reflexivity|].
  split; [apply (expiry_of_raise _ _ _ Hexp)|].
  split; [reflexivity | exact Hentry].
Qed.

Lemma X19_fetch_with_unconvertible_ttl_witness :
  let lib := Examples.lib_const Examples.alice in
  let err := OverflowError "int too large to convert to float" in
  let r := API.fetch lib "/x" (Some (10 ^ 400)%Z) (Examples.at_time 0)
                     (Examples.at_time 0) Examples.api0 in
  fst r = Raise err
  /\ Runs.is_overflow err = true
  /\ API.rust_core (snd r)
     = API.rust_core Examples.api0 ++ [API.CallFetch "/x"]
  /\ LRUCache.entry_of (API.cache_key_of "/x") (API.cache (snd r)) = None.
Proof.
  intros lib err.
  apply (X19_fetch_with_unconvertible_ttl
           lib "/x" (10 ^ 400) (Examples.at_time 0) (Examples.at_time 0)
           Examples.api0 VNone Examples.alice Examples.alice err).
  - cbn. lia.
  - reflexivity.
  - reflexivity.
  - reflexivity.
  - reflexivity.
  - reflexivity.
Defined.
